(** * BeliX: the in-process cache and rate-limiting core

    A shallow embedding of [utils/cache.js] and [utils/rateLimit.js]:
    the TTL cache ([CacheEntry], [CacheManager]), the command cooldown
    manager, the sliding-window spam detector and the minimum-interval
    farming guard, followed by the properties of the specification that
    concern them.

    Conventions of the embedding.
    - JavaScript numbers that hold timestamps, durations and counters are
      integers here ([Z]); the float range limit (2^53) is not modelled.
    - A JavaScript [Map] keyed by strings is a [gmap string _].  Iteration
      order (insertion order in JavaScript) is not kept.  The sweeps do
      not depend on it; [estimateMemoryUsage] adds up its sizes in any
      order, and when several stored values fail to serialize the error
      it throws may be that of another of them than in JavaScript.
    - Every method runs in the monad [JS S]: it reads the wall clock
      ([Date.now()]), threads the state [S] of the object it is a method
      of, may complete abruptly (a thrown exception), and leaves a trace
      of its observable effects (calls of the logger, invocations of a
      fetch callback).  A synchronous method body sees one clock reading.
    - Objects reached through a [Map] are mutated in place in the source;
      here the mutated object is written back under its key. *)

From Stdlib Require Import ZArith Ascii String List Lia Sorted.
From stdpp Require Import gmap strings list fin_maps pretty.

Open Scope string_scope.
Open Scope list_scope.
Open Scope stdpp_scope.
Open Scope Z_scope.

(** ** Completions, events and the method monad *)

Inductive JsError : Type :=
| TypeError (msg : string)
| ReferenceError (name : string)
| Failure (reason : string).

Inductive Completion (A : Type) : Type :=
| Normal (a : A)
| Abrupt (e : JsError).
Arguments Normal {A} a.
Arguments Abrupt {A} e.

Inductive LogLevel : Type := Debug | Info | Warn | Error.

(** [Logged lvl msg subject]: a call [logger.lvl(msg, {...})]; of the
    metadata object only the key or user id it is about is recorded.
    [Fetched]: the fetch callback given to [getOrSet] was invoked. *)
Inductive Event : Type :=
| Logged (lvl : LogLevel) (msg : string) (subject : string)
| Fetched.

Record Outcome (S A : Type) : Type := mkOutcome {
  result : Completion A;
  state : S;
  events : list Event
}.
Arguments mkOutcome {S A} _ _ _.
Arguments result {S A} _.
Arguments state {S A} _.
Arguments events {S A} _.

Definition JS (S A : Type) : Type := Z -> S -> Outcome S A.

Definition ret {S A} (a : A) : JS S A :=
  fun _ s => mkOutcome (Normal a) s [].

Definition throw {S A} (e : JsError) : JS S A :=
  fun _ s => mkOutcome (Abrupt e) s [].

Definition bind {S A B} (m : JS S A) (k : A -> JS S B) : JS S B :=
  fun now s =>
    match m now s with
    | mkOutcome (Normal a) s1 ev1 =>
        match k a now s1 with
        | mkOutcome r s2 ev2 => mkOutcome r s2 (ev1 ++ ev2)
        end
    | mkOutcome (Abrupt e) s1 ev1 => mkOutcome (Abrupt e) s1 ev1
    end.

(** [try { body } catch (error) { handler(error) }] *)
Definition try_catch {S A} (body : JS S A) (handler : JsError -> JS S A) : JS S A :=
  fun now s =>
    match body now s with
    | mkOutcome (Normal a) s1 ev1 => mkOutcome (Normal a) s1 ev1
    | mkOutcome (Abrupt e) s1 ev1 =>
        match handler e now s1 with
        | mkOutcome r s2 ev2 => mkOutcome r s2 (ev1 ++ ev2)
        end
    end.

Definition Date_now {S} : JS S Z :=
  fun now s => mkOutcome (Normal now) s [].

Definition this {S} : JS S S :=
  fun _ s => mkOutcome (Normal s) s [].

Definition assign {S} (s' : S) : JS S unit :=
  fun _ _ => mkOutcome (Normal tt) s' [].

Definition emit {S} (e : Event) : JS S unit :=
  fun _ s => mkOutcome (Normal tt) s [e].

(** A computation that touches neither the state nor the trace. *)
Definition complete {S A} (c : Completion A) : JS S A :=
  fun _ s => mkOutcome c s [].

(** A method of an object of state [S] run where a collaborator of state
    [X] is also in play. *)
Definition lift {S X A} (m : JS S A) : JS (S * X) A :=
  fun now w =>
    match m now (fst w) with
    | mkOutcome r s1 ev1 => mkOutcome r (s1, snd w) ev1
    end.

(** The part of an [async] function after an [await]: it runs at the
    clock reading [settledAt] at which the awaited promise settled. *)
Definition resumed_at {S A} (settledAt : Z) (m : JS S A) : JS S A :=
  fun _ s => m settledAt s.

Declare Scope js_scope.
Delimit Scope js_scope with js.
Notation "x <- m ;; k" := (bind m (fun x => k))
  (at level 100, m at next level, right associativity) : js_scope.
Notation "m ;; k" := (bind m (fun _ => k))
  (at level 100, right associativity) : js_scope.
Open Scope js_scope.

Module logger.
Definition debug {S} (msg subject : string) : JS S unit := emit (Logged Debug msg subject).
Definition info {S} (msg subject : string) : JS S unit := emit (Logged Info msg subject).
Definition warn {S} (msg subject : string) : JS S unit := emit (Logged Warn msg subject).
Definition error {S} (msg subject : string) : JS S unit := emit (Logged Error msg subject).
End logger.

(** [Math.ceil(x / 1000)] for an integer [x]. *)
Definition ceil_div_1000 (x : Z) : Z := - ((- x) / 1000).

(** ** utils/rateLimit.js *)

Module AntiSpamManager.

Record Thresholds : Type := mkThresholds {
  messageThreshold : Z;
  timeWindow : Z;
  autoMute : Z
}.

Record t : Type := mk {
  messageHistory : gmap string (list Z);
  thresholds : Thresholds
}.

Definition constructor : t :=
  {| messageHistory := ∅;
     thresholds := {| messageThreshold := 5; timeWindow := 5000; autoMute := 30000 |} |}.

Record SpamResult : Type := mkSpamResult {
  isSpamming : bool;
  reason : option string;
  muteDuration : option Z
}.

Definition set_history (m : t) (h : gmap string (list Z)) : t :=
  {| messageHistory := h; thresholds := thresholds m |}.

Definition checkSpam (userId : string) : JS t SpamResult :=
  now <- Date_now ;;
  m <- this ;;
  (match messageHistory m !! userId with
   | None => assign (set_history m (<[userId := []]> (messageHistory m)))
   | Some _ => ret tt
   end) ;;
  m <- this ;;
  let history := default [] (messageHistory m !! userId) in
  let filteredHistory :=
    List.filter (fun timestamp => now - timestamp <? timeWindow (thresholds m)) history in
  if Z.of_nat (length filteredHistory) >=? messageThreshold (thresholds m) then
    logger.warn "Spam detected" userId ;;
    ret {| isSpamming := true;
           reason := Some "Too many messages";
           muteDuration := Some (autoMute (thresholds m)) |}
  else
    let filteredHistory := filteredHistory ++ [now] in
    assign (set_history m (<[userId := filteredHistory]> (messageHistory m))) ;;
    ret {| isSpamming := false; reason := None; muteDuration := None |}.

Definition clearUserHistory (userId : string) : JS t unit :=
  m <- this ;;
  assign (set_history m (delete userId (messageHistory m))).

End AntiSpamManager.

(** [x || 0] where [x] is a number or [undefined] (the value of
    [record?.violations] when there is no record): every falsy [x]
    gives [0]. *)
Definition or_zero (x : option Z) : Z :=
  match x with
  | Some n => if n =? 0 then 0 else n
  | None => 0
  end.
Arguments or_zero : simpl never.

Module CooldownData.
Record t : Type := mk {
  expiresAt : Z;
  violations : Z
}.
End CooldownData.

Module CommandCooldownManager.

Record t : Type := mk {
  cooldowns : gmap string (gmap string CooldownData.t);
  cleanupInterval : Z;
  maxViolations : Z;
  baseEscalation : Z
}.

Definition constructor : t :=
  {| cooldowns := ∅;
     cleanupInterval := 60000;
     maxViolations := 3;
     baseEscalation := 1000 |}.

Record CooldownResult : Type := mkResult {
  allowed : bool;
  retryAfter : option Z;
  violations : option Z
}.

Definition set_cooldowns (m : t) (c : gmap string (gmap string CooldownData.t)) : t :=
  {| cooldowns := c;
     cleanupInterval := cleanupInterval m;
     maxViolations := maxViolations m;
     baseEscalation := baseEscalation m |}.

(** The part of [checkCooldown] after the early return: "Cooldown
    expired or first use - set new cooldown". *)
Definition set_new_cooldown (userId commandName : string) (cooldownMs now : Z)
    : JS t CooldownResult :=
  m <- this ;;
  let userCooldowns := default ∅ (cooldowns m !! userId) in
  let violations := or_zero (CooldownData.violations <$> userCooldowns !! commandName) in
  let escalatedCooldown := cooldownMs + violations * baseEscalation m in
  let userCooldowns :=
    <[commandName := {| CooldownData.expiresAt := now + escalatedCooldown;
                        CooldownData.violations := 0 |}]> userCooldowns in
  assign (set_cooldowns m (<[userId := userCooldowns]> (cooldowns m))) ;;
  ret {| allowed := true; retryAfter := None; violations := None |}.

(** [checkCooldown(userId, commandName, cooldownMs = 5000)]; an omitted
    third argument is [None]. *)
Definition checkCooldown (userId commandName : string) (cooldownMs : option Z)
    : JS t CooldownResult :=
  let cooldownMs := default 5000 cooldownMs in
  now <- Date_now ;;
  m <- this ;;
  (match cooldowns m !! userId with
   | None => assign (set_cooldowns m (<[userId := ∅]> (cooldowns m)))
   | Some _ => ret tt
   end) ;;
  m <- this ;;
  let userCooldowns := default ∅ (cooldowns m !! userId) in
  match userCooldowns !! commandName with
  | Some cooldownData =>
      let isExpired := now >=? CooldownData.expiresAt cooldownData in
      if negb isExpired then
        let retryAfter := ceil_div_1000 (CooldownData.expiresAt cooldownData - now) in
        let cooldownData :=
          {| CooldownData.expiresAt := CooldownData.expiresAt cooldownData;
             CooldownData.violations :=
               or_zero (Some (CooldownData.violations cooldownData)) + 1 |} in
        assign (set_cooldowns m
                  (<[userId := <[commandName := cooldownData]> userCooldowns]> (cooldowns m))) ;;
        logger.warn "Command cooldown triggered" userId ;;
        ret {| allowed := false;
               retryAfter := Some retryAfter;
               violations := Some (CooldownData.violations cooldownData) |}
      else set_new_cooldown userId commandName cooldownMs now
  | None => set_new_cooldown userId commandName cooldownMs now
  end.

Definition resetCooldown (userId commandName : string) : JS t unit :=
  m <- this ;;
  match cooldowns m !! userId with
  | Some userCooldowns =>
      assign (set_cooldowns m (<[userId := delete commandName userCooldowns]> (cooldowns m))) ;;
      logger.info "Cooldown reset" userId
  | None => ret tt
  end.

(** The callback that [startAutoCleanup] schedules every
    [cleanupInterval] milliseconds. *)
Definition autoCleanup : JS t unit :=
  now <- Date_now ;;
  m <- this ;;
  let swept : gmap string (gmap string CooldownData.t) :=
    (fun commands : gmap string CooldownData.t =>
       filter (fun kv => negb (now >=? CooldownData.expiresAt (snd kv)) = true) commands)
    <$> cooldowns m in
  let expiredUsers :=
    filter (fun kv : string * gmap string CooldownData.t => size (snd kv) = 0%nat) swept in
  let kept :=
    filter (fun kv : string * gmap string CooldownData.t => size (snd kv) <> 0%nat) swept in
  assign (set_cooldowns m kept) ;;
  if (0 <? size expiredUsers)%nat then logger.debug "Cooldown cleanup" "" else ret tt.

Record Stats : Type := mkStats {
  totalUsers : nat;
  totalActiveUsers : nat
}.

Definition getStats : JS t Stats :=
  m <- this ;;
  ret {| totalUsers := size (cooldowns m);
         totalActiveUsers :=
           length (List.filter (fun cmds : gmap string CooldownData.t => (0 <? size cmds)%nat)
                     (map_to_list (cooldowns m)).*2) |}.

End CommandCooldownManager.

Module LeaderboardFarmingPrevention.

Record t : Type := mk {
  lastPointsUpdate : gmap string Z;
  minIntervalBetweenUpdates : Z
}.

Definition constructor : t :=
  {| lastPointsUpdate := ∅; minIntervalBetweenUpdates := 30000 |}.

Record ActionResult : Type := mkResult {
  allowed : bool;
  retryAfter : option Z;
  reason : option string
}.

Definition set_lastPointsUpdate (m : t) (l : gmap string Z) : t :=
  {| lastPointsUpdate := l; minIntervalBetweenUpdates := minIntervalBetweenUpdates m |}.

(** [!lastUpdate]: true for [undefined] and for the number [0]. *)
Definition falsy (lastUpdate : option Z) : bool :=
  match lastUpdate with
  | None => true
  | Some n => n =? 0
  end.

Definition canPerformAction (userId : string) : JS t ActionResult :=
  now <- Date_now ;;
  m <- this ;;
  let lastUpdate := lastPointsUpdate m !! userId in
  if falsy lastUpdate then
    assign (set_lastPointsUpdate m (<[userId := now]> (lastPointsUpdate m))) ;;
    ret {| allowed := true; retryAfter := None; reason := None |}
  else
    let timeSinceLastUpdate := now - default 0 lastUpdate in
    if timeSinceLastUpdate <? minIntervalBetweenUpdates m then
      let retryAfter := ceil_div_1000 (minIntervalBetweenUpdates m - timeSinceLastUpdate) in
      ret {| allowed := false;
             retryAfter := Some retryAfter;
             reason := Some "Points cooldown active" |}
    else
      assign (set_lastPointsUpdate m (<[userId := now]> (lastPointsUpdate m))) ;;
      ret {| allowed := true; retryAfter := None; reason := None |}.

End LeaderboardFarmingPrevention.

(** ** JavaScript values held by the cache

    The fragment of JavaScript values that the cache is exercised with.
    Strings are ASCII; [JCyclic] stands for an object graph that
    contains a reference cycle. *)

#[warnings="-register-all"]
Inductive JsValue : Type :=
| JUndefined
| JNull
| JBool (b : bool)
| JNumber (n : Z)
| JString (s : string)
| JBigInt (n : Z)
| JArray (items : list JsValue)
| JObject (fields : list (string * JsValue))
| JCyclic.

(** [v !== null] *)
Definition not_null (v : JsValue) : bool :=
  match v with
  | JNull => false
  | _ => true
  end.

Definition hex_digit (n : N) : ascii :=
  match n with
  | 10%N => "a"%char | 11%N => "b"%char | 12%N => "c"%char
  | 13%N => "d"%char | 14%N => "e"%char | 15%N => "f"%char
  | _ => Ascii.ascii_of_N (48 + n)
  end.

(** The JSON escape of one character of a string literal. *)
Definition json_escape (c : ascii) : string :=
  let n := Ascii.N_of_ascii c in
  if (n =? 34)%N then String "\" (String (Ascii.ascii_of_N 34) "")
  else if (n =? 92)%N then "\\"
  else if (n =? 8)%N then "\b"
  else if (n =? 9)%N then "\t"
  else if (n =? 10)%N then "\n"
  else if (n =? 12)%N then "\f"
  else if (n =? 13)%N then "\r"
  else if (n <? 32)%N then
    "\u00" +:+ String (hex_digit (n / 16)) (String (hex_digit (n mod 16)) "")
  else String c "".

Fixpoint json_escape_string (s : string) : string :=
  match s with
  | EmptyString => ""
  | String c r => json_escape c +:+ json_escape_string r
  end.

Definition json_quote (s : string) : string :=
  String (Ascii.ascii_of_N 34) (json_escape_string s +:+ String (Ascii.ascii_of_N 34) "").

(** [JSON.stringify(v)]: a string, [undefined] ([None]) for [undefined],
    or a thrown [TypeError] for a BigInt or a cyclic structure.  Inside
    an array [undefined] is written as [null]; inside an object a field
    whose value is [undefined] is left out. *)
Fixpoint JSON_stringify (v : JsValue) : Completion (option string) :=
  match v with
  | JUndefined => Normal None
  | JNull => Normal (Some "null")
  | JBool b => Normal (Some (if b then "true" else "false"))
  | JNumber n => Normal (Some (pretty n))
  | JString s => Normal (Some (json_quote s))
  | JBigInt _ => Abrupt (TypeError "Do not know how to serialize a BigInt")
  | JCyclic => Abrupt (TypeError "Converting circular structure to JSON")
  | JArray items =>
      let elements :=
        (fix elements (l : list JsValue) : Completion (list string) :=
           match l with
           | [] => Normal []
           | x :: r =>
               match JSON_stringify x with
               | Abrupt e => Abrupt e
               | Normal o =>
                   match elements r with
                   | Abrupt e => Abrupt e
                   | Normal rest => Normal (default "null" o :: rest)
                   end
               end
           end) items in
      match elements with
      | Abrupt e => Abrupt e
      | Normal parts => Normal (Some ("[" +:+ String.concat "," parts +:+ "]"))
      end
  | JObject fields =>
      let members :=
        (fix members (l : list (string * JsValue)) : Completion (list string) :=
           match l with
           | [] => Normal []
           | (k, x) :: r =>
               match JSON_stringify x with
               | Abrupt e => Abrupt e
               | Normal o =>
                   match members r with
                   | Abrupt e => Abrupt e
                   | Normal rest =>
                       match o with
                       | Some s => Normal ((json_quote k +:+ ":" +:+ s) :: rest)
                       | None => Normal rest
                       end
                   end
               end
           end) fields in
      match members with
      | Abrupt e => Abrupt e
      | Normal parts => Normal (Some ("{" +:+ String.concat "," parts +:+ "}"))
      end
  end.

(** [s.length] where [s] is the result of [JSON.stringify]: reading a
    property of [undefined] throws. *)
Definition string_length (s : option string) : Completion Z :=
  match s with
  | Some s => Normal (Z.of_nat (String.length s))
  | None => Abrupt (TypeError "Cannot read properties of undefined (reading 'length')")
  end.

(** ** utils/cache.js *)

(** What an identifier of [cache.js] can be bound to: a declaration of
    the module itself, or a property of the host's global object. *)
Inductive Binding : Type :=
| WrapperParam
| Imported (path : string)
| ClassDecl (name : string)
| Instance (className : string)
| HostValue (v : JsValue).

(** The names in scope in every function of [cache.js]: the parameters
    of the CommonJS module wrapper, then the top-level declarations of
    the file in source order. *)
Definition module_scope : list (string * Binding) :=
  [ ("exports", WrapperParam);
    ("require", WrapperParam);
    ("module", WrapperParam);
    ("__filename", WrapperParam);
    ("__dirname", WrapperParam);
    ("logger", Imported "./logger");
    ("CacheEntry", ClassDecl "CacheEntry");
    ("CacheManager", ClassDecl "CacheManager");
    ("cache", Instance "CacheManager");
    ("LeaderboardCacheHandler", ClassDecl "LeaderboardCacheHandler");
    ("DailyQuestionCacheHandler", ClassDecl "DailyQuestionCacheHandler");
    ("TerminologyCacheHandler", ClassDecl "TerminologyCacheHandler");
    ("leaderboardCache", Instance "LeaderboardCacheHandler");
    ("dailyQuestionCache", Instance "DailyQuestionCacheHandler");
    ("terminologyCache", Instance "TerminologyCacheHandler") ].

Fixpoint assoc (name : string) (l : list (string * Binding)) : option Binding :=
  match l with
  | [] => None
  | (k, b) :: r => if String.eqb name k then Some b else assoc name r
  end.

(** Evaluation of a bare identifier inside a method of [cache.js] that
    has no parameter or local of that name: the module's own
    declarations, then the global object [globalThis]; an unresolvable
    reference throws. *)
Definition resolve {S} (globalThis : gmap string JsValue) (name : string) : JS S Binding :=
  match assoc name module_scope with
  | Some b => ret b
  | None =>
      match globalThis !! name with
      | Some v => ret (HostValue v)
      | None => throw (ReferenceError name)
      end
  end.

Module CacheEntry.

Record t : Type := mk {
  value : JsValue;
  createdAt : Z;
  ttl : Z;
  hits : Z;
  lastAccessed : Z
}.

Definition constructor {S} (value : JsValue) (ttl : Z) : JS S t :=
  createdAt <- Date_now ;;
  lastAccessed <- Date_now ;;
  ret {| value := value; createdAt := createdAt; ttl := ttl;
         hits := 0; lastAccessed := lastAccessed |}.

Definition isExpired {S} (e : t) : JS S bool :=
  now <- Date_now ;;
  ret (now - createdAt e >? ttl e).

(** The entry after [this.hits++; this.lastAccessed = now]. *)
Definition hit_at (now : Z) (e : t) : t :=
  {| value := value e; createdAt := createdAt e; ttl := ttl e;
     hits := hits e + 1; lastAccessed := now |}.

(** Mutates the entry; the mutated entry is returned. *)
Definition recordHit {S} (e : t) : JS S t :=
  now <- Date_now ;;
  ret (hit_at now e).

Record EntryStats : Type := mkStats {
  stats_createdAt : Z;
  stats_lastAccessed : Z;
  stats_hits : Binding;
  stats_age : Z;
  stats_ttl : Z
}.

(** The object literal is evaluated field by field; its third field is
    the bare identifier [hits], not [this.hits]. *)
Definition getStats {S} (globalThis : gmap string JsValue) (e : t) : JS S EntryStats :=
  let createdAt_ := createdAt e in
  let lastAccessed_ := lastAccessed e in
  hits_ <- resolve globalThis "hits" ;;
  now <- Date_now ;;
  ret {| stats_createdAt := createdAt_;
         stats_lastAccessed := lastAccessed_;
         stats_hits := hits_;
         stats_age := now - createdAt e;
         stats_ttl := ttl e |}.

End CacheEntry.

Module Metrics.
Record t : Type := mk {
  hits : Z;
  misses : Z;
  sets : Z;
  deletes : Z
}.

(** [metrics.hits++], [metrics.misses++], [metrics.sets++] and
    [metrics.deletes++] (the latter [n] times). *)
Definition incr_hits (m : t) : t :=
  {| hits := hits m + 1; misses := misses m; sets := sets m; deletes := deletes m |}.
Definition incr_misses (m : t) : t :=
  {| hits := hits m; misses := misses m + 1; sets := sets m; deletes := deletes m |}.
Definition incr_sets (m : t) : t :=
  {| hits := hits m; misses := misses m; sets := sets m + 1; deletes := deletes m |}.
Definition incr_deletes (n : Z) (m : t) : t :=
  {| hits := hits m; misses := misses m; sets := sets m; deletes := deletes m + n |}.
End Metrics.

Module CacheManager.

Record t : Type := mk {
  store : gmap string CacheEntry.t;
  metrics : Metrics.t
}.

Definition constructor : t :=
  {| store := ∅;
     metrics := {| Metrics.hits := 0; Metrics.misses := 0;
                   Metrics.sets := 0; Metrics.deletes := 0 |} |}.

Definition update_store (f : gmap string CacheEntry.t -> gmap string CacheEntry.t) : JS t unit :=
  c <- this ;;
  assign {| store := f (store c); metrics := metrics c |}.

Definition update_metrics (f : Metrics.t -> Metrics.t) : JS t unit :=
  c <- this ;;
  assign {| store := store c; metrics := f (metrics c) |}.

(** [set(key, value, ttl = 300000)]; an omitted [ttl] is [None]. *)
Definition set (key : string) (value : JsValue) (ttl : option Z) : JS t unit :=
  let ttl := default 300000 ttl in
  try_catch
    (entry <- CacheEntry.constructor value ttl ;;
     update_store (insert key entry) ;;
     update_metrics Metrics.incr_sets ;;
     logger.debug "Cache set" key)
    (fun error => logger.error "Cache set error" key).

Definition get (key : string) : JS t JsValue :=
  try_catch
    (c <- this ;;
     match store c !! key with
     | None =>
         update_metrics Metrics.incr_misses ;;
         ret JNull
     | Some entry =>
         expired <- CacheEntry.isExpired entry ;;
         if expired then
           update_store (base.delete key) ;;
           update_metrics Metrics.incr_misses ;;
           ret JNull
         else
           entry <- CacheEntry.recordHit entry ;;
           update_store (insert key entry) ;;
           update_metrics Metrics.incr_hits ;;
           logger.debug "Cache hit" key ;;
           ret (CacheEntry.value entry)
     end)
    (fun error =>
       logger.error "Cache get error" key ;;
       ret JNull).

Definition delete (key : string) : JS t bool :=
  c <- this ;;
  let hadEntry := bool_decide (is_Some (store c !! key)) in
  update_store (base.delete key) ;;
  (if hadEntry then
     update_metrics (Metrics.incr_deletes 1) ;;
     logger.debug "Cache invalidated" key
   else ret tt) ;;
  ret hadEntry.

Definition clear : JS t unit :=
  update_store (fun _ => ∅) ;;
  logger.info "Cache cleared" "".

(** A fetch callback: an external collaborator with a state [X] of its
    own; an invocation either yields a value or fails (throws, or
    returns a promise that rejects). *)
Definition FetchFn (X : Type) : Type := X -> Completion JsValue * X.

Definition invoke {X} (fetchFn : FetchFn X) : JS (t * X) JsValue :=
  fun _ w =>
    let r := fetchFn (snd w) in
    mkOutcome (fst r) (fst w, snd r) [Fetched].

(** [async getOrSet(key, fetchFn, ttl = 300000)].  The callback is
    invoked at the clock reading of the call; the code after
    [await fetchFn()] runs at [settledAt].  No other task touches the
    cache while the fetch is pending. *)
Definition getOrSet {X} (key : string) (fetchFn : FetchFn X) (ttl : option Z)
    (settledAt : Z) : JS (t * X) JsValue :=
  let ttl := default 300000 ttl in
  cached <- lift (get key) ;;
  if not_null cached then ret cached
  else
    try_catch
      (value <- invoke fetchFn ;;
       resumed_at settledAt
         (lift (set key value (Some ttl)) ;;
          ret value))
      (fun error =>
         resumed_at settledAt
           (lift (logger.error "Cache getOrSet fetch error" key) ;;
            throw error)).

(** [JSON.stringify(v).length] *)
Definition serialized_length (v : JsValue) : Completion Z :=
  match JSON_stringify v with
  | Abrupt e => Abrupt e
  | Normal s => string_length s
  end.

(** The loop of [estimateMemoryUsage] over the stored values. *)
Fixpoint sum_serialized (values : list JsValue) (bytes : Z) : Completion Z :=
  match values with
  | [] => Normal bytes
  | v :: rest =>
      match serialized_length v with
      | Abrupt e => Abrupt e
      | Normal len => sum_serialized rest (bytes + len * 2)
      end
  end.

Definition two_digits (n : Z) : string :=
  if n <? 10 then "0" +:+ pretty n else pretty n.

(** [`${(bytes / 1024).toFixed(2)} KB`] for a byte count [bytes >= 0]:
    the quotient is exact, and [toFixed(2)] rounds it to the nearest
    hundredth, a tie upward. *)
Definition format_KB (bytes : Z) : string :=
  let n := (bytes * 200 + 1024) / 2048 in
  pretty (n / 100) +:+ "." +:+ two_digits (n mod 100) +:+ " KB".

Definition estimateMemoryUsage : JS t string :=
  c <- this ;;
  bytes <- complete (sum_serialized (CacheEntry.value <$> (map_to_list (store c)).*2) 0) ;;
  ret (format_KB bytes).

(** [hitRate] is kept as the fraction it is printed from: [None] is the
    literal [0] of the no-access case, [Some (h, n)] the percentage
    [h / n * 100] before [toFixed(2)]. *)
Record Stats : Type := mkStats {
  stats_metrics : Metrics.t;
  hitRate : option (Z * Z);
  entriesStored : nat;
  estimatedMemory : string
}.

Definition getStats : JS t Stats :=
  c <- this ;;
  let m := metrics c in
  let hitRate :=
    if Metrics.hits m + Metrics.misses m >? 0
    then Some (Metrics.hits m, Metrics.hits m + Metrics.misses m)
    else None in
  let entriesStored := size (store c) in
  estimatedMemory <- estimateMemoryUsage ;;
  ret {| stats_metrics := m;
         hitRate := hitRate;
         entriesStored := entriesStored;
         estimatedMemory := estimatedMemory |}.

(** The callback that [startAutoCleanup] schedules every ten minutes. *)
Definition autoCleanup : JS t unit :=
  now <- Date_now ;;
  c <- this ;;
  let before := size (store c) in
  let live := filter (fun kv : string * CacheEntry.t =>
                        (now - CacheEntry.createdAt (snd kv) >? CacheEntry.ttl (snd kv)) = false)
                     (store c) in
  update_store (fun _ => live) ;;
  let after := size live in
  let removed := (before - after)%nat in
  update_metrics (Metrics.incr_deletes (Z.of_nat removed)) ;;
  if (0 <? removed)%nat then logger.debug "Cache cleanup" "" else ret tt.

End CacheManager.

(** The named-key wrappers ([LeaderboardCacheHandler],
    [DailyQuestionCacheHandler], [TerminologyCacheHandler]): a fixed key
    and time-to-live in front of the shared [cache]. *)
Module CacheHandler.

Record t : Type := mk {
  cacheKey : string;
  ttl : Z;
  invalidated : string
}.

Definition LeaderboardCacheHandler : t :=
  {| cacheKey := "leaderboard:top10"; ttl := 300000;
     invalidated := "Leaderboard cache invalidated" |}.
Definition DailyQuestionCacheHandler : t :=
  {| cacheKey := "question:daily"; ttl := 86400000;
     invalidated := "Daily question cache invalidated" |}.
Definition TerminologyCacheHandler : t :=
  {| cacheKey := "terminology:daily"; ttl := 86400000;
     invalidated := "Terminology cache invalidated" |}.

Definition get {X} (h : t) (fetchFn : CacheManager.FetchFn X) (settledAt : Z)
    : JS (CacheManager.t * X) JsValue :=
  CacheManager.getOrSet (cacheKey h) fetchFn (Some (ttl h)) settledAt.

Definition invalidate (h : t) : JS CacheManager.t unit :=
  CacheManager.delete (cacheKey h) ;;
  logger.info (invalidated h) "".

End CacheHandler.

(** ** Running a method several times *)

(** The same call made once at each of the clock readings [times], in
    order, each on the state the previous one left. *)
Fixpoint replay {S A} (m : JS S A) (times : list Z) (s : S) : list (Completion A) * S :=
  match times with
  | [] => ([], s)
  | now :: rest =>
      let o := m now s in
      let r := replay m rest (state o) in
      (result o :: fst r, snd r)
  end.

(** The number of invocations of the fetch callback in a trace. *)
Definition fetch_count (tr : list Event) : nat :=
  length (List.filter (fun e => match e with Fetched => true | _ => false end) tr).

(** ** Vocabulary of the statements *)

(** The timestamps stored for a user, and those of them that a check at
    [now] keeps. *)
Definition history (m : AntiSpamManager.t) (userId : string) : list Z :=
  default [] (AntiSpamManager.messageHistory m !! userId).

Definition in_window (m : AntiSpamManager.t) (now : Z) (h : list Z) : list Z :=
  List.filter
    (fun timestamp =>
       now - timestamp <? AntiSpamManager.timeWindow (AntiSpamManager.thresholds m)) h.

(** The two results of [checkSpam]. *)
Definition admitted : AntiSpamManager.SpamResult :=
  {| AntiSpamManager.isSpamming := false;
     AntiSpamManager.reason := None;
     AntiSpamManager.muteDuration := None |}.

Definition flagged (m : AntiSpamManager.t) : AntiSpamManager.SpamResult :=
  {| AntiSpamManager.isSpamming := true;
     AntiSpamManager.reason := Some "Too many messages";
     AntiSpamManager.muteDuration :=
       Some (AntiSpamManager.autoMute (AntiSpamManager.thresholds m)) |}.

(** The cooldown record of a (user, command) pair, if any. *)
Definition cooldown_of (m : CommandCooldownManager.t) (userId commandName : string)
    : option CooldownData.t :=
  default ∅ (CommandCooldownManager.cooldowns m !! userId) !! commandName.

Definition cooldown_allowed : CommandCooldownManager.CooldownResult :=
  {| CommandCooldownManager.allowed := true;
     CommandCooldownManager.retryAfter := None;
     CommandCooldownManager.violations := None |}.

Definition cooldown_denied (retryAfter violations : Z) : CommandCooldownManager.CooldownResult :=
  {| CommandCooldownManager.allowed := false;
     CommandCooldownManager.retryAfter := Some retryAfter;
     CommandCooldownManager.violations := Some violations |}.

Definition action_allowed : LeaderboardFarmingPrevention.ActionResult :=
  {| LeaderboardFarmingPrevention.allowed := true;
     LeaderboardFarmingPrevention.retryAfter := None;
     LeaderboardFarmingPrevention.reason := None |}.

Definition action_denied (retryAfter : Z) : LeaderboardFarmingPrevention.ActionResult :=
  {| LeaderboardFarmingPrevention.allowed := false;
     LeaderboardFarmingPrevention.retryAfter := Some retryAfter;
     LeaderboardFarmingPrevention.reason := Some "Points cooldown active" |}.

(** A callback without state that completes the same way at every
    invocation. *)
Definition constant_fetch (r : Completion JsValue) : CacheManager.FetchFn unit :=
  fun x => (r, x).

(** Calls made one after the other, each at its own clock reading and on
    the state the previous one left; the outcome of each is kept. *)
Fixpoint run_calls {S A} (calls : list (Z * JS S A)) (s : S) : list (Outcome S A) :=
  match calls with
  | [] => []
  | (now, m) :: rest =>
      let o := m now s in
      o :: run_calls rest (state o)
  end.


(** The entry that [get] leaves under a key, given the one it found. *)
Definition entry_after_get (now : Z) (found : option CacheEntry.t) : option CacheEntry.t :=
  match found with
  | Some e =>
      if now - CacheEntry.createdAt e >? CacheEntry.ttl e then None
      else Some (CacheEntry.hit_at now e)
  | None => None
  end.

(** ** The middleware functions of rateLimit.js *)

Module Middleware.

(** The part of a Discord interaction that [checkCommandRateLimit] uses:
    [interaction.user.id], [interaction.deferred], and the methods
    [editReply(message)] and [reply({ content, ephemeral })], which act
    on an external collaborator of state [X] and may fail. *)
Record Interaction (X : Type) : Type := mkInteraction {
  user_id : string;
  deferred : bool;
  editReply : string -> X -> Completion unit * X;
  reply : string -> bool -> X -> Completion unit * X
}.
Arguments mkInteraction {X} _ _ _ _.
Arguments user_id {X} _.
Arguments deferred {X} _.
Arguments editReply {X} _ _ _.
Arguments reply {X} _ _ _ _.

(** A call of a method of the collaborator, awaited. *)
Definition send {S X} (f : X -> Completion unit * X) : JS (S * X) unit :=
  fun _ w =>
    let r := f (snd w) in
    mkOutcome (fst r) (fst w, snd r) [].

(** The template literal of the reply; [retryAfter] is [undefined] when
    the result carries none. *)
Definition cooldown_message (retryAfter : option Z) : string :=
  "⏱️ This command is on cooldown. Try again in **"
  +:+ match retryAfter with Some r => pretty r | None => "undefined" end
  +:+ "s**".

(** [async checkCommandRateLimit(interaction, commandName, cooldownMs = 5000)]
    on the singleton [commandCooldownManager]. *)
Definition checkCommandRateLimit {X} (interaction : Interaction X) (commandName : string)
    (cooldownMs : option Z) : JS (CommandCooldownManager.t * X) bool :=
  let cooldownMs := default 5000 cooldownMs in
  result <- lift (CommandCooldownManager.checkCooldown
                    (user_id interaction) commandName (Some cooldownMs)) ;;
  if negb (CommandCooldownManager.allowed result) then
    let message := cooldown_message (CommandCooldownManager.retryAfter result) in
    try_catch
      (if deferred interaction
       then send (editReply interaction message)
       else send (reply interaction message true))
      (fun err => lift (logger.error "Error sending rate limit reply" "")) ;;
    ret false
  else ret true.

(** [checkMessageSpam(userId)] and [checkLeaderboardFarming(userId)] on
    the singletons [antiSpamManager] and [leaderboardFarmingPrevention]. *)
Definition checkMessageSpam (userId : string)
    : JS AntiSpamManager.t AntiSpamManager.SpamResult :=
  AntiSpamManager.checkSpam userId.

Definition checkLeaderboardFarming (userId : string)
    : JS LeaderboardFarmingPrevention.t LeaderboardFarmingPrevention.ActionResult :=
  LeaderboardFarmingPrevention.canPerformAction userId.

End Middleware.

(** ** Sequences of operations *)

(** The clock readings, among [times], at which the call [m] completed
    with a result accepted by [ok]; each call runs on the state the
    previous one left. *)
Fixpoint times_where {S A} (ok : A -> bool) (m : JS S A) (times : list Z) (s : S) : list Z :=
  match times with
  | [] => []
  | now :: rest =>
      let o := m now s in
      let tl := times_where ok m rest (state o) in
      match result o with
      | Normal a => if ok a then now :: tl else tl
      | Abrupt _ => tl
      end
  end.

(** The times at which a user's messages were admitted, and those at
    which a user's point actions were allowed. *)
Definition admitted_times (userId : string) (times : list Z) (m : AntiSpamManager.t) : list Z :=
  times_where (fun r => negb (AntiSpamManager.isSpamming r))
    (AntiSpamManager.checkSpam userId) times m.

Definition allowed_times (userId : string) (times : list Z)
    (m : LeaderboardFarmingPrevention.t) : list Z :=
  times_where LeaderboardFarmingPrevention.allowed
    (LeaderboardFarmingPrevention.canPerformAction userId) times m.

(** The timestamps of [l] that lie less than [window] before [now]. *)
Definition recent (window now : Z) (l : list Z) : list Z :=
  List.filter (fun timestamp => now - timestamp <? window) l.

(** Every two neighbours of the list are at least [gap] apart. *)
Fixpoint spaced (gap : Z) (l : list Z) : Prop :=
  match l with
  | [] => True
  | a :: rest =>
      match rest with
      | [] => True
      | b :: _ => gap <= b - a
      end /\ spaced gap rest
  end.

(** The operations of the cache a caller can issue, and the sweep. *)
Inductive CacheOp : Type :=
| OpSet (key : string) (value : JsValue) (ttl : option Z)
| OpGet (key : string)
| OpDelete (key : string)
| OpClear
| OpSweep.

Inductive OpResult : Type :=
| Done
| Got (v : JsValue)
| Deleted (hadEntry : bool).

Definition run_op (op : CacheOp) : JS CacheManager.t OpResult :=
  match op with
  | OpSet key value ttl => CacheManager.set key value ttl ;; ret Done
  | OpGet key => v <- CacheManager.get key ;; ret (Got v)
  | OpDelete key => b <- CacheManager.delete key ;; ret (Deleted b)
  | OpClear => CacheManager.clear ;; ret Done
  | OpSweep => CacheManager.autoCleanup ;; ret Done
  end.

Definition cache_calls (ops : list (Z * CacheOp)) : list (Z * JS CacheManager.t OpResult) :=
  List.map (fun call => (fst call, run_op (snd call))) ops.

(** What a caller expects of a TTL cache: a map from a key to the value
    last set for it, the time it was set at and its time-to-live;
    [get] answers from it without changing it, and the sweep is not
    visible. *)
Definition expected_get (now : Z) (found : option (JsValue * Z * Z)) : JsValue :=
  match found with
  | Some (v, createdAt, ttl) => if now - createdAt >? ttl then JNull else v
  | None => JNull
  end.

Definition expected_step (now : Z) (op : CacheOp) (a : gmap string (JsValue * Z * Z))
    : gmap string (JsValue * Z * Z) :=
  match op with
  | OpSet key value ttl => <[key := (value, now, default 300000 ttl)]> a
  | OpGet _ => a
  | OpDelete key => delete key a
  | OpClear => ∅
  | OpSweep => a
  end.

(** The answers expected for the [get]s of a sequence of operations
    ([None] marks an operation that is not a [get]). *)
Fixpoint expected_gets (ops : list (Z * CacheOp)) (a : gmap string (JsValue * Z * Z))
    : list (option JsValue) :=
  match ops with
  | [] => []
  | (now, op) :: rest =>
      match op with
      | OpGet key => Some (expected_get now (a !! key))
      | _ => None
      end :: expected_gets rest (expected_step now op a)
  end.

(** The answer of a cache operation if it was a [get]. *)
Definition got (o : Outcome CacheManager.t OpResult) : option JsValue :=
  match result o with
  | Normal (Got v) => Some v
  | _ => None
  end.

(** The number of operations of a kind in a sequence. *)
Definition count_ops (kind : CacheOp -> bool) (ops : list (Z * CacheOp)) : Z :=
  Z.of_nat (length (List.filter (fun call => kind (snd call)) ops)).

Definition is_get (op : CacheOp) : bool :=
  match op with OpGet _ => true | _ => false end.

Definition is_set (op : CacheOp) : bool :=
  match op with OpSet _ _ _ => true | _ => false end.

(** The state a sequence of calls ends in. *)
Fixpoint final_state {S A} (calls : list (Z * JS S A)) (s : S) : S :=
  match calls with
  | [] => s
  | (now, m) :: rest => final_state rest (state (m now s))
  end.

(** The entries of a store that are not expired at [now]. *)
Definition live_at (now : Z) (st : gmap string CacheEntry.t) : gmap string CacheEntry.t :=
  filter (fun kv : string * CacheEntry.t =>
            (now - CacheEntry.createdAt (snd kv) >? CacheEntry.ttl (snd kv)) = false) st.

(** The record that the cooldown sweep at [now] leaves of a record. *)
Definition active_at (now : Z) (d : option CooldownData.t) : option CooldownData.t :=
  match d with
  | Some d => if now >=? CooldownData.expiresAt d then None else Some d
  | None => None
  end.

(** The cache [c] agrees with the expected map [a] at clock readings
    from [lo] on: an expected entry is stored with the same value,
    creation time and time-to-live, or it has been purged and was
    expired at [lo] already; nothing else is stored. *)
Definition tracks (lo : Z) (c : CacheManager.t) (a : gmap string (JsValue * Z * Z)) : Prop :=
  forall k,
    match a !! k with
    | Some (v, createdAt, ttl) =>
        (exists e, CacheManager.store c !! k = Some e /\
                   CacheEntry.value e = v /\
                   CacheEntry.createdAt e = createdAt /\
                   CacheEntry.ttl e = ttl)
        \/ (CacheManager.store c !! k = None /\ ttl < lo - createdAt)
    | None => CacheManager.store c !! k = None
    end.

(** ** [getOrSet] with its [await] made visible

    An [async] function runs synchronously up to its first [await]: the
    lookup and the invocation of the callback belong to the call itself,
    the code after [await fetchFn()] to a later turn of the event loop.
    Between the two turns other calls can run. *)
Inductive Suspended : Type :=
| Returned (cached : JsValue)
| Awaiting (promise : Completion JsValue).

(** The first turn: [this.get(key)], the early return, and
    [fetchFn()]. *)
Definition getOrSet_until_await {X} (key : string) (fetchFn : CacheManager.FetchFn X)
    : JS (CacheManager.t * X) Suspended :=
  cached <- lift (CacheManager.get key) ;;
  if not_null cached then ret (Returned cached)
  else
    fun now w =>
      match CacheManager.invoke fetchFn now w with
      | mkOutcome promise w1 ev1 => mkOutcome (Normal (Awaiting promise)) w1 ev1
      end.

(** The second turn, once the promise has settled: [this.set] and the
    return, or the [catch] block. *)
Definition getOrSet_after_await {X} (key : string) (ttl : option Z) (suspended : Suspended)
    : JS (CacheManager.t * X) JsValue :=
  let ttl := default 300000 ttl in
  match suspended with
  | Returned cached => ret cached
  | Awaiting promise =>
      try_catch
        (value <- complete promise ;;
         lift (CacheManager.set key value (Some ttl)) ;;
         ret value)
        (fun error =>
           lift (logger.error "Cache getOrSet fetch error" key) ;;
           throw error)
  end.

(** * Properties *)

(** ** Sliding-window spam detector *)

Section SpamDetector.
Import AntiSpamManager.

Lemma checkSpam_thresholds m u now :
  thresholds (state (checkSpam u now m)) = thresholds m.
Proof.
  unfold checkSpam, bind, this, Date_now, assign, ret, logger.warn, emit, set_history.
  cbn. destruct (messageHistory m !! u); cbn;
    match goal with |- context [if ?b then _ else _] => destruct b end; reflexivity.
Qed.

(** A check that finds fewer than [messageThreshold] timestamps in the
    window admits the message and stores the window plus [now]. *)
Lemma checkSpam_admits m u now :
  Z.of_nat (length (in_window m now (history m u))) < messageThreshold (thresholds m) ->
  result (checkSpam u now m) = Normal admitted /\
  history (state (checkSpam u now m)) u = in_window m now (history m u) ++ [now] /\
  events (checkSpam u now m) = [].
Proof.
  unfold history, in_window. intros Hlt.
  apply Z.ltb_lt in Hlt. rewrite Z.ltb_antisym in Hlt.
  apply negb_true_iff in Hlt. rewrite <- Z.geb_leb in Hlt.
  unfold checkSpam, bind, this, Date_now, assign, ret, logger.warn, emit, set_history.
  cbn. destruct (messageHistory m !! u) as [h|] eqn:Hh; cbn.
  - rewrite Hh. cbn. cbn in Hlt. rewrite Hlt. cbn.
    rewrite lookup_insert_eq. auto.
  - rewrite lookup_insert_eq. cbn. cbn in Hlt. rewrite Hlt. cbn.
    rewrite lookup_insert_eq. auto.
Qed.

(** A check that finds [messageThreshold] timestamps or more in the
    window flags the message and leaves the stored history as it was. *)
Lemma checkSpam_flags m u now :
  messageThreshold (thresholds m) <= Z.of_nat (length (in_window m now (history m u))) ->
  result (checkSpam u now m) = Normal (flagged m) /\
  history (state (checkSpam u now m)) u = history m u /\
  events (checkSpam u now m) = [Logged Warn "Spam detected" u].
Proof.
  unfold history, in_window, flagged. intros Hge.
  apply Z.leb_le in Hge. rewrite <- Z.geb_leb in Hge.
  unfold checkSpam, bind, this, Date_now, assign, ret, logger.warn, emit, set_history.
  cbn. destruct (messageHistory m !! u) as [h|] eqn:Hh; cbn.
  - rewrite Hh. cbn. cbn in Hge. rewrite Hge. cbn. rewrite Hh. auto.
  - rewrite lookup_insert_eq. cbn. cbn in Hge. rewrite Hge. cbn.
    rewrite lookup_insert_eq. auto.
Qed.

End SpamDetector.

Section SpamWindow.
Import AntiSpamManager.

Lemma in_window_all m now h :
  Forall (fun timestamp => now - timestamp < timeWindow (thresholds m)) h ->
  in_window m now h = h.
Proof.
  unfold in_window. induction 1 as [|ts h Hts _ IH]; cbn; [reflexivity|].
  apply Z.ltb_lt in Hts. rewrite Hts, IH. reflexivity.
Qed.

Lemma in_window_length m now h :
  (length (in_window m now h) <= length h)%nat.
Proof. unfold in_window. apply List.filter_length_le. Qed.

Lemma in_window_drop m now ts h :
  timeWindow (thresholds m) <= now - ts ->
  in_window m now (ts :: h) = in_window m now h.
Proof.
  intros Hold. unfold in_window. cbn.
  destruct (Z.ltb_spec (now - ts) (timeWindow (thresholds m))); [lia | reflexivity].
Qed.

(** With the default thresholds, a check that finds fewer than five
    stored timestamps, all of them recent, admits the message. *)
Lemma checkSpam_burst_admits m u now h :
  thresholds m = thresholds constructor ->
  history m u = h ->
  Forall (fun timestamp => now - timestamp < 5000) h ->
  (length h < 5)%nat ->
  result (checkSpam u now m) = Normal admitted /\
  history (state (checkSpam u now m)) u = h ++ [now] /\
  thresholds (state (checkSpam u now m)) = thresholds constructor.
Proof.
  intros Hth Hh Hall Hlen.
  assert (Hw : in_window m now h = h) by (apply in_window_all; rewrite Hth; exact Hall).
  destruct (checkSpam_admits m u now) as (Hr & Hs & _).
  { rewrite Hh, Hw, Hth. cbn. lia. }
  rewrite Hh, Hw in Hs. rewrite checkSpam_thresholds. auto.
Qed.

(** With the default thresholds, a check that finds five recent stored
    timestamps flags the message and stores nothing. *)
Lemma checkSpam_burst_flags m u now h :
  thresholds m = thresholds constructor ->
  history m u = h ->
  Forall (fun timestamp => now - timestamp < 5000) h ->
  (5 <= length h)%nat ->
  result (checkSpam u now m) = Normal (flagged constructor) /\
  history (state (checkSpam u now m)) u = h /\
  thresholds (state (checkSpam u now m)) = thresholds constructor.
Proof.
  intros Hth Hh Hall Hlen.
  assert (Hw : in_window m now h = h) by (apply in_window_all; rewrite Hth; exact Hall).
  destruct (checkSpam_flags m u now) as (Hr & Hs & _).
  { rewrite Hh, Hw, Hth. cbn. lia. }
  rewrite Hh in Hs. rewrite checkSpam_thresholds. unfold flagged in *.
  rewrite Hth in Hr. auto.
Qed.

(** With the default thresholds, once the oldest of at most five stored
    timestamps has left the window the next check admits the message. *)
Lemma checkSpam_after_window m u now ts h :
  thresholds m = thresholds constructor ->
  history m u = ts :: h ->
  5000 <= now - ts ->
  (length h <= 4)%nat ->
  result (checkSpam u now m) = Normal admitted.
Proof.
  intros Hth Hh Hold Hlen.
  destruct (checkSpam_admits m u now) as (Hr & _).
  { rewrite Hh, in_window_drop by (rewrite Hth; exact Hold).
    pose proof (in_window_length m now h). rewrite Hth. cbn. lia. }
  exact Hr.
Qed.

End SpamWindow.

Section SpamScenario.
Import AntiSpamManager.

(** C1, as stated, fails: on a fresh detector with the default
    thresholds, the fifth of five calls made within five milliseconds is
    not flagged. *)
Lemma checkSpam_fifth_call_not_flagged :
  exists r : SpamResult,
    fst (replay (checkSpam "user") [1000; 1001; 1002; 1003; 1004] constructor) !! 4%nat
      = Some (Normal r)
    /\ isSpamming r <> true.
Proof.
  exists admitted. split; [vm_compute; reflexivity | discriminate].
Qed.

(** C1, amended: with threshold 5 and window 5000 ms, for a user with
    no prior history, six calls of [checkSpam] within the window return
    [isSpamming = false] for the first five and [isSpamming = true] (with
    the 30000 ms mute) on the sixth; the count is taken before the
    current timestamp is appended, and the flagged sixth call appends
    nothing: the stored history is the five admitted timestamps before
    and after it.  A call made once the window has passed since the
    first timestamp returns [isSpamming = false]. *)
Theorem checkSpam_sliding_window (m : t) (u : string) (t1 t2 t3 t4 t5 t6 t7 : Z) :
  thresholds m = thresholds constructor ->
  messageHistory m !! u = None ->
  t1 <= t2 -> t2 <= t3 -> t3 <= t4 -> t4 <= t5 -> t5 <= t6 ->
  t6 - t1 < 5000 ->
  5000 <= t7 - t1 ->
  fst (replay (checkSpam u) [t1; t2; t3; t4; t5; t6; t7] m)
    = [Normal admitted; Normal admitted; Normal admitted; Normal admitted;
       Normal admitted; Normal (flagged constructor); Normal admitted]
  /\ history (snd (replay (checkSpam u) [t1; t2; t3; t4; t5] m)) u = [t1; t2; t3; t4; t5]
  /\ history (snd (replay (checkSpam u) [t1; t2; t3; t4; t5; t6] m)) u = [t1; t2; t3; t4; t5].
Proof.
  intros Hth Hnone H12 H23 H34 H45 H56 Hin Hout.
  assert (H0 : history m u = []) by (unfold history; rewrite Hnone; reflexivity).
  cbn [replay fst snd].
  destruct (checkSpam_burst_admits m u t1 [] Hth H0) as (R1 & S1 & T1);
    [constructor | cbn; lia |].
  set (s1 := state (checkSpam u t1 m)) in *.
  destruct (checkSpam_burst_admits s1 u t2 _ T1 S1) as (R2 & S2 & T2);
    [repeat constructor; lia | cbn; lia |].
  set (s2 := state (checkSpam u t2 s1)) in *.
  destruct (checkSpam_burst_admits s2 u t3 _ T2 S2) as (R3 & S3 & T3);
    [repeat constructor; lia | cbn; lia |].
  set (s3 := state (checkSpam u t3 s2)) in *.
  destruct (checkSpam_burst_admits s3 u t4 _ T3 S3) as (R4 & S4 & T4);
    [repeat constructor; lia | cbn; lia |].
  set (s4 := state (checkSpam u t4 s3)) in *.
  destruct (checkSpam_burst_admits s4 u t5 _ T4 S4) as (R5 & S5 & T5);
    [repeat constructor; lia | cbn; lia |].
  set (s5 := state (checkSpam u t5 s4)) in *.
  destruct (checkSpam_burst_flags s5 u t6 _ T5 S5) as (R6 & S6 & T6);
    [repeat constructor; lia | cbn; lia |].
  set (s6 := state (checkSpam u t6 s5)) in *.
  assert (R7 : result (checkSpam u t7 s6) = Normal admitted).
  { apply (checkSpam_after_window s6 u t7 t1 [t2; t3; t4; t5] T6 S6); [lia | cbn; lia]. }
  rewrite R1, R2, R3, R4, R5, R6, R7.
  split; [reflexivity | split; assumption].
Qed.

Lemma checkSpam_sliding_window_witness :
  fst (replay (checkSpam "user") [1000; 1001; 1002; 1003; 1004; 1005; 6000] constructor)
    = [Normal admitted; Normal admitted; Normal admitted; Normal admitted;
       Normal admitted; Normal (flagged constructor); Normal admitted]
  /\ history (snd (replay (checkSpam "user") [1000; 1001; 1002; 1003; 1004] constructor)) "user"
       = [1000; 1001; 1002; 1003; 1004]
  /\ history (snd (replay (checkSpam "user") [1000; 1001; 1002; 1003; 1004; 1005] constructor)) "user"
       = [1000; 1001; 1002; 1003; 1004].
Proof.
  apply (checkSpam_sliding_window constructor "user" 1000 1001 1002 1003 1004 1005 6000);
    first [reflexivity | lia].
Defined.

End SpamScenario.

(** ** Rounding of retry delays *)

Lemma ceil_div_1000_spec (x : Z) :
  1000 * (ceil_div_1000 x - 1) < x <= 1000 * ceil_div_1000 x.
Proof.
  unfold ceil_div_1000.
  pose proof (Z.div_mod (- x) 1000 ltac:(lia)).
  pose proof (Z.mod_pos_bound (- x) 1000 ltac:(lia)).
  lia.
Qed.

Lemma ceil_div_1000_pos (x : Z) : 0 < x -> 0 < ceil_div_1000 x.
Proof. pose proof (ceil_div_1000_spec x). lia. Qed.

Lemma or_zero_Some (n : Z) : or_zero (Some n) = n.
Proof. unfold or_zero. destruct (Z.eqb_spec n 0); congruence. Qed.

(** Symbolic evaluation of a method body: simplify, and rewrite with
    the map lookups and tests that are known. *)
Ltac js_eval :=
  repeat (cbn;
          first [ rewrite lookup_insert_eq
                | rewrite lookup_empty
                | rewrite lookup_delete_eq
                | rewrite or_zero_Some
                | progress change (or_zero None) with 0
                | match goal with H : _ !! _ = _ |- _ => rewrite H end
                | match goal with H : _ = true |- _ => rewrite H end
                | match goal with H : _ = false |- _ => rewrite H end ]);
  cbn.


(** ** Command cooldown manager *)

Section Cooldown.
Import CommandCooldownManager.

Ltac run_checkCooldown :=
  unfold checkCooldown, set_new_cooldown, bind, this, Date_now, assign, ret,
    logger.warn, emit, set_cooldowns; cbn.

Lemma checkCooldown_baseEscalation m u c cd now :
  baseEscalation (state (checkCooldown u c cd now m)) = baseEscalation m.
Proof.
  run_checkCooldown.
  destruct (cooldowns m !! u) as [cmds|] eqn:Hu; js_eval.
  - destruct (cmds !! c) as [d|] eqn:Hd; js_eval; [|reflexivity].
    destruct (now >=? CooldownData.expiresAt d) eqn:Hge; js_eval; reflexivity.
  - reflexivity.
Qed.

Lemma checkCooldown_first_use m u c cd now :
  cooldown_of m u c = None ->
  result (checkCooldown u c cd now m) = Normal cooldown_allowed /\
  cooldown_of (state (checkCooldown u c cd now m)) u c
    = Some {| CooldownData.expiresAt := now + default 5000 cd;
              CooldownData.violations := 0 |} /\
  events (checkCooldown u c cd now m) = [].
Proof.
  unfold cooldown_of. intros Hnone. run_checkCooldown.
  destruct (cooldowns m !! u) as [cmds|] eqn:Hu; cbn in Hnone; js_eval.
  - split; [reflexivity | split; [| reflexivity]]. do 2 f_equal. lia.
  - split; [reflexivity | split; [| reflexivity]]. do 2 f_equal. lia.
Qed.

Lemma checkCooldown_active m u c cd now d :
  cooldown_of m u c = Some d ->
  now < CooldownData.expiresAt d ->
  result (checkCooldown u c cd now m)
    = Normal (cooldown_denied (ceil_div_1000 (CooldownData.expiresAt d - now))
                              (CooldownData.violations d + 1)) /\
  cooldown_of (state (checkCooldown u c cd now m)) u c
    = Some {| CooldownData.expiresAt := CooldownData.expiresAt d;
              CooldownData.violations := CooldownData.violations d + 1 |} /\
  events (checkCooldown u c cd now m) = [Logged Warn "Command cooldown triggered" u].
Proof.
  unfold cooldown_of, cooldown_denied. intros Hd Hlt.
  assert (Hge : (now >=? CooldownData.expiresAt d) = false)
    by (rewrite Z.geb_leb; apply Z.leb_gt; lia).
  run_checkCooldown.
  destruct (cooldowns m !! u) as [cmds|] eqn:Hu; cbn in Hd.
  - js_eval. auto.
  - rewrite lookup_empty in Hd. discriminate.
Qed.

Lemma checkCooldown_elapsed m u c cd now d :
  cooldown_of m u c = Some d ->
  CooldownData.expiresAt d <= now ->
  result (checkCooldown u c cd now m) = Normal cooldown_allowed /\
  cooldown_of (state (checkCooldown u c cd now m)) u c
    = Some {| CooldownData.expiresAt :=
                now + (default 5000 cd + CooldownData.violations d * baseEscalation m);
              CooldownData.violations := 0 |} /\
  events (checkCooldown u c cd now m) = [].
Proof.
  unfold cooldown_of. intros Hd Hle.
  assert (Hge : (now >=? CooldownData.expiresAt d) = true)
    by (rewrite Z.geb_leb; apply Z.leb_le; lia).
  run_checkCooldown.
  destruct (cooldowns m !! u) as [cmds|] eqn:Hu; cbn in Hd.
  - js_eval. auto.
  - rewrite lookup_empty in Hd. discriminate.
Qed.

(** Every check made before the record expires is denied and counted on
    the record: after [n] such checks the count has grown by [n]. *)
Lemma checkCooldown_denials_accumulate u c cd (times : list Z) :
  forall m d,
    cooldown_of m u c = Some d ->
    Forall (fun now => now < CooldownData.expiresAt d) times ->
    let r := replay (checkCooldown u c cd) times m in
    Forall (fun res => exists retryAfter n, res = Normal (cooldown_denied retryAfter n)) (fst r) /\
    cooldown_of (snd r) u c
      = Some {| CooldownData.expiresAt := CooldownData.expiresAt d;
                CooldownData.violations := CooldownData.violations d + Z.of_nat (length times) |} /\
    baseEscalation (snd r) = baseEscalation m.
Proof.
  induction times as [|now rest IH]; intros m d Hd Hall; cbv zeta.
  - cbn [replay fst snd length Z.of_nat]. rewrite Z.add_0_r.
    split; [constructor|]. split; [destruct d; exact Hd | reflexivity].
  - inversion Hall as [|? ? Hnow Hrest]; subst.
    destruct (checkCooldown_active m u c cd now d Hd Hnow) as (R & S & _).
    pose proof (checkCooldown_baseEscalation m u c cd now) as B.
    cbn [replay fst snd].
    set (o := checkCooldown u c cd now m) in *. clearbody o.
    destruct (IH (state o) _ S Hrest) as (Hres & Hrec & Hbase).
    cbn [CooldownData.expiresAt CooldownData.violations] in Hrec.
    split; [constructor; [rewrite R; eauto | exact Hres]|].
    split; [|congruence].
    rewrite Hrec. do 2 f_equal. cbn [length]. lia.
Qed.

(** The cooldown installed after [n] denied checks is the base cooldown
    plus [n] escalation steps. *)
Lemma checkCooldown_escalates_by_denials m u c cd (t0 : Z) (times : list Z) (t : Z) :
  cooldown_of m u c = None ->
  Forall (fun now => now < t0 + default 5000 cd) times ->
  t0 + default 5000 cd <= t ->
  let m1 := state (checkCooldown u c cd t0 m) in
  let m2 := snd (replay (checkCooldown u c cd) times m1) in
  let o := checkCooldown u c cd t m2 in
  result o = Normal cooldown_allowed /\
  cooldown_of (state o) u c
    = Some {| CooldownData.expiresAt :=
                t + (default 5000 cd + Z.of_nat (length times) * baseEscalation m);
              CooldownData.violations := 0 |}.
Proof.
  intros Hnone Hall Ht. cbv zeta.
  destruct (checkCooldown_first_use m u c cd t0 Hnone) as (_ & S1 & _).
  pose proof (checkCooldown_baseEscalation m u c cd t0) as B1.
  set (m1 := state (checkCooldown u c cd t0 m)) in *. clearbody m1.
  destruct (checkCooldown_denials_accumulate u c cd times m1 _ S1 Hall) as (_ & S2 & B2).
  set (m2 := snd (replay (checkCooldown u c cd) times m1)) in *. clearbody m2.
  cbn [CooldownData.expiresAt CooldownData.violations] in S2.
  destruct (checkCooldown_elapsed m2 u c cd t _ S2) as (R & S3 & _); [exact Ht|].
  cbn [CooldownData.expiresAt CooldownData.violations] in S3.
  split; [exact R|]. rewrite S3, B2, B1. reflexivity.
Qed.

(** C2: with a base cooldown of 5000 ms and an escalation step of
    1000 ms, the first check for a (user, command) pair is allowed and
    installs [expiresAt = now + 5000] with no violation; a second check
    before expiry is denied with violation count 1, counted on the
    existing record, and [retryAfter = ceil((expiresAt - now) / 1000)],
    that is the one integer [r] with
    [1000 * (r - 1) < expiresAt - now <= 1000 * r]; the next check once
    the cooldown has elapsed is allowed and installs a cooldown of
    5000 + 1 * 1000 = 6000 ms with the count back at 0. *)
Theorem checkCooldown_escalation (m : t) (u c : string) (t1 t2 t3 : Z) :
  baseEscalation m = 1000 ->
  cooldown_of m u c = None ->
  t2 < t1 + 5000 ->
  t1 + 5000 <= t3 ->
  let o1 := checkCooldown u c (Some 5000) t1 m in
  let o2 := checkCooldown u c (Some 5000) t2 (state o1) in
  let o3 := checkCooldown u c (Some 5000) t3 (state o2) in
  result o1 = Normal cooldown_allowed /\
  cooldown_of (state o1) u c
    = Some {| CooldownData.expiresAt := t1 + 5000; CooldownData.violations := 0 |} /\
  (exists retryAfter : Z,
     result o2 = Normal (cooldown_denied retryAfter 1) /\
     1000 * (retryAfter - 1) < (t1 + 5000) - t2 <= 1000 * retryAfter) /\
  cooldown_of (state o2) u c
    = Some {| CooldownData.expiresAt := t1 + 5000; CooldownData.violations := 1 |} /\
  result o3 = Normal cooldown_allowed /\
  cooldown_of (state o3) u c
    = Some {| CooldownData.expiresAt := t3 + 6000; CooldownData.violations := 0 |}.
Proof.
  intros Hstep Hnone H2 H3. cbv zeta.
  destruct (checkCooldown_first_use m u c (Some 5000) t1 Hnone) as (R1 & S1 & _).
  pose proof (checkCooldown_baseEscalation m u c (Some 5000) t1) as B1.
  set (o1 := checkCooldown u c (Some 5000) t1 m) in *. clearbody o1.
  change (default 5000 (Some 5000)) with 5000 in S1.
  destruct (checkCooldown_active (state o1) u c (Some 5000) t2 _ S1) as (R2 & S2 & _);
    [cbn; lia|].
  pose proof (checkCooldown_baseEscalation (state o1) u c (Some 5000) t2) as B2.
  set (o2 := checkCooldown u c (Some 5000) t2 (state o1)) in *. clearbody o2.
  cbn [CooldownData.expiresAt CooldownData.violations] in R2, S2.
  destruct (checkCooldown_elapsed (state o2) u c (Some 5000) t3 _ S2) as (R3 & S3 & _);
    [cbn; lia|].
  set (o3 := checkCooldown u c (Some 5000) t3 (state o2)) in *. clearbody o3.
  cbn [CooldownData.expiresAt CooldownData.violations] in S3.
  rewrite B2, B1, Hstep in S3.
  change (default 5000 (Some 5000)) with 5000 in S3.
  change (0 + 1) with 1 in *.
  change (5000 + 1 * 1000) with 6000 in S3.
  split; [exact R1|]. split; [exact S1|].
  split; [exists (ceil_div_1000 (t1 + 5000 - t2));
          split; [exact R2 | apply ceil_div_1000_spec]|].
  repeat split; assumption.
Qed.

Lemma checkCooldown_escalation_witness :
  let o1 := checkCooldown "user" "daily" (Some 5000) 10000 constructor in
  let o2 := checkCooldown "user" "daily" (Some 5000) 12500 (state o1) in
  let o3 := checkCooldown "user" "daily" (Some 5000) 15000 (state o2) in
  result o1 = Normal cooldown_allowed /\
  cooldown_of (state o1) "user" "daily"
    = Some {| CooldownData.expiresAt := 10000 + 5000; CooldownData.violations := 0 |} /\
  (exists retryAfter : Z,
     result o2 = Normal (cooldown_denied retryAfter 1) /\
     1000 * (retryAfter - 1) < (10000 + 5000) - 12500 <= 1000 * retryAfter) /\
  cooldown_of (state o2) "user" "daily"
    = Some {| CooldownData.expiresAt := 10000 + 5000; CooldownData.violations := 1 |} /\
  result o3 = Normal cooldown_allowed /\
  cooldown_of (state o3) "user" "daily"
    = Some {| CooldownData.expiresAt := 15000 + 6000; CooldownData.violations := 0 |}.
Proof.
  apply (checkCooldown_escalation constructor "user" "daily" 10000 12500 15000);
    first [reflexivity | lia].
Defined.

End Cooldown.

(** ** Minimum-interval farming guard *)

Section FarmingGuard.
Import LeaderboardFarmingPrevention.

Ltac run_canPerformAction :=
  unfold canPerformAction, bind, this, Date_now, assign, ret, set_lastPointsUpdate; cbn.

(** No usable record (none, or the falsy timestamp 0): allowed, and
    [now] becomes the last-action time. *)
Lemma canPerformAction_no_record m u now :
  falsy (lastPointsUpdate m !! u) = true ->
  result (canPerformAction u now m) = Normal action_allowed /\
  lastPointsUpdate (state (canPerformAction u now m)) !! u = Some now /\
  minIntervalBetweenUpdates (state (canPerformAction u now m)) = minIntervalBetweenUpdates m.
Proof.
  intros Hf. run_canPerformAction. js_eval. auto.
Qed.

(** A record younger than the minimum interval: denied, nothing stored. *)
Lemma canPerformAction_too_soon m u now lastAction :
  lastPointsUpdate m !! u = Some lastAction ->
  lastAction <> 0 ->
  now - lastAction < minIntervalBetweenUpdates m ->
  result (canPerformAction u now m)
    = Normal (action_denied
                (ceil_div_1000 (minIntervalBetweenUpdates m - (now - lastAction)))) /\
  state (canPerformAction u now m) = m.
Proof.
  intros Hl Hnz Hlt.
  assert (Hz : (lastAction =? 0) = false) by (apply Z.eqb_neq; exact Hnz).
  assert (Hb : (now - lastAction <? minIntervalBetweenUpdates m) = true)
    by (apply Z.ltb_lt; exact Hlt).
  run_canPerformAction. js_eval. auto.
Qed.

(** A record at least as old as the minimum interval: allowed, and the
    last-action time is overwritten with [now]. *)
Lemma canPerformAction_elapsed m u now lastAction :
  lastPointsUpdate m !! u = Some lastAction ->
  minIntervalBetweenUpdates m <= now - lastAction ->
  result (canPerformAction u now m) = Normal action_allowed /\
  lastPointsUpdate (state (canPerformAction u now m)) !! u = Some now.
Proof.
  intros Hl Hle.
  assert (Hb : (now - lastAction <? minIntervalBetweenUpdates m) = false)
    by (apply Z.ltb_ge; exact Hle).
  run_canPerformAction. rewrite Hl. cbn.
  destruct (lastAction =? 0); js_eval; auto.
Qed.

(** C7: with the minimum interval of 30000 ms, the first call for a user
    is allowed and records its clock reading [t0] as the last-action
    time; a later call at [t1] with [t1 - t0 < 30000] is denied with
    [retryAfter = ceil((30000 - (t1 - t0)) / 1000) > 0], that is the
    one integer [r] with
    [1000 * (r - 1) < 30000 - (t1 - t0) <= 1000 * r], and changes
    nothing; a call at [t2] with [t2 - t0 >= 30000] is allowed and
    overwrites the last-action time with [t2].  The clock reading [t0]
    is a wall-clock time, not the epoch itself ([t0 <> 0]). *)
Theorem canPerformAction_min_interval (m : t) (u : string) (t0 t1 t2 : Z) :
  minIntervalBetweenUpdates m = 30000 ->
  lastPointsUpdate m !! u = None ->
  t0 <> 0 ->
  t1 - t0 < 30000 ->
  30000 <= t2 - t0 ->
  let o0 := canPerformAction u t0 m in
  let o1 := canPerformAction u t1 (state o0) in
  let o2 := canPerformAction u t2 (state o1) in
  result o0 = Normal action_allowed /\
  lastPointsUpdate (state o0) !! u = Some t0 /\
  (exists retryAfter : Z,
     result o1 = Normal (action_denied retryAfter) /\
     1000 * (retryAfter - 1) < 30000 - (t1 - t0) <= 1000 * retryAfter /\
     0 < retryAfter) /\
  state o1 = state o0 /\
  result o2 = Normal action_allowed /\
  lastPointsUpdate (state o2) !! u = Some t2.
Proof.
  intros Hmin Hnone Hnz H1 H2. cbv zeta.
  destruct (canPerformAction_no_record m u t0) as (R0 & S0 & I0);
    [rewrite Hnone; reflexivity|].
  set (o0 := canPerformAction u t0 m) in *. clearbody o0.
  rewrite Hmin in I0.
  destruct (canPerformAction_too_soon (state o0) u t1 t0 S0 Hnz) as (R1 & S1);
    [rewrite I0; exact H1|].
  set (o1 := canPerformAction u t1 (state o0)) in *. clearbody o1.
  rewrite I0 in R1.
  assert (S0' : lastPointsUpdate (state o1) !! u = Some t0) by (rewrite S1; exact S0).
  destruct (canPerformAction_elapsed (state o1) u t2 t0 S0') as (R2 & S2);
    [rewrite S1, I0; exact H2|].
  split; [exact R0|]. split; [exact S0|].
  split; [exists (ceil_div_1000 (30000 - (t1 - t0)));
          split; [exact R1|]; split;
          [apply ceil_div_1000_spec | apply ceil_div_1000_pos; lia]|].
  repeat split; assumption.
Qed.

Lemma canPerformAction_min_interval_witness :
  let o0 := canPerformAction "user" 1000 constructor in
  let o1 := canPerformAction "user" 1001 (state o0) in
  let o2 := canPerformAction "user" 31001 (state o1) in
  result o0 = Normal action_allowed /\
  lastPointsUpdate (state o0) !! "user" = Some 1000 /\
  (exists retryAfter : Z,
     result o1 = Normal (action_denied retryAfter) /\
     1000 * (retryAfter - 1) < 30000 - (1001 - 1000) <= 1000 * retryAfter /\
     0 < retryAfter) /\
  state o1 = state o0 /\
  result o2 = Normal action_allowed /\
  lastPointsUpdate (state o2) !! "user" = Some 31001.
Proof.
  apply (canPerformAction_min_interval constructor "user" 1000 1001 31001);
    first [reflexivity | lia].
Defined.

(** The guard reads a last-action time of 0 as "no record": after a first
    call at the clock reading 0, an immediate second call is allowed. *)
Lemma canPerformAction_epoch_reading :
  let o0 := canPerformAction "user" 0 constructor in
  result (canPerformAction "user" 1 (state o0)) = Normal action_allowed.
Proof. vm_compute. reflexivity. Qed.

End FarmingGuard.

(** ** TTL cache: [set], [get], [delete] *)

Section Cache.
Import CacheManager.

Ltac run_cache :=
  unfold get, set, delete, try_catch, update_store, update_metrics,
    CacheEntry.constructor, CacheEntry.isExpired, CacheEntry.recordHit,
    logger.debug, logger.error, logger.info, emit, bind, this, Date_now, assign, ret;
  cbn.

(** [set] never fails: it stores a fresh entry stamped with the clock
    reading and counts one set. *)
Lemma set_outcome key v ttl now c :
  set key v ttl now c
  = mkOutcome (Normal tt)
      {| store := <[key := {| CacheEntry.value := v;
                              CacheEntry.createdAt := now;
                              CacheEntry.ttl := default 300000 ttl;
                              CacheEntry.hits := 0;
                              CacheEntry.lastAccessed := now |}]> (store c);
         metrics := Metrics.incr_sets (metrics c) |}
      [Logged Debug "Cache set" key].
Proof. reflexivity. Qed.

Lemma get_absent key now c :
  store c !! key = None ->
  get key now c
  = mkOutcome (Normal JNull)
      {| store := store c; metrics := Metrics.incr_misses (metrics c) |} [].
Proof. intros Hk. run_cache. js_eval. reflexivity. Qed.

Lemma get_expired key now c e :
  store c !! key = Some e ->
  CacheEntry.ttl e < now - CacheEntry.createdAt e ->
  get key now c
  = mkOutcome (Normal JNull)
      {| store := base.delete key (store c);
         metrics := Metrics.incr_misses (metrics c) |} [].
Proof.
  intros Hk Hold.
  assert (Hb : (now - CacheEntry.createdAt e >? CacheEntry.ttl e) = true)
    by (rewrite Z.gtb_ltb; apply Z.ltb_lt; exact Hold).
  run_cache. js_eval. reflexivity.
Qed.

Lemma get_live key now c e :
  store c !! key = Some e ->
  now - CacheEntry.createdAt e <= CacheEntry.ttl e ->
  get key now c
  = mkOutcome (Normal (CacheEntry.value e))
      {| store := <[key := CacheEntry.hit_at now e]> (store c);
         metrics := Metrics.incr_hits (metrics c) |}
      [Logged Debug "Cache hit" key].
Proof.
  intros Hk Hyoung.
  assert (Hb : (now - CacheEntry.createdAt e >? CacheEntry.ttl e) = false)
    by (rewrite Z.gtb_ltb; apply Z.ltb_ge; exact Hyoung).
  run_cache. js_eval. reflexivity.
Qed.

(** [get] never throws. *)
Lemma get_returns key now c : exists v, result (get key now c) = Normal v.
Proof.
  destruct (store c !! key) as [e|] eqn:Hk.
  - destruct (Z_lt_le_dec (CacheEntry.ttl e) (now - CacheEntry.createdAt e)).
    + rewrite (get_expired key now c e) by assumption. eauto.
    + rewrite (get_live key now c e) by assumption. eauto.
  - rewrite get_absent by assumption. eauto.
Qed.

Lemma delete_outcome key now c :
  delete key now c
  = if bool_decide (is_Some (store c !! key))
    then mkOutcome (Normal true)
           {| store := base.delete key (store c);
              metrics := Metrics.incr_deletes 1 (metrics c) |}
           [Logged Debug "Cache invalidated" key]
    else mkOutcome (Normal false)
           {| store := base.delete key (store c); metrics := metrics c |} [].
Proof. run_cache. destruct (bool_decide (is_Some (store c !! key))); reflexivity. Qed.

End Cache.

Section CacheClaims.
Import CacheManager.

(** C3: for every [ttl > 0], a [get] made right after
    [set(key, v, ttl)] returns [v]; the expiry test is a strict [>], so
    the entry is still served at an age of exactly [ttl] milliseconds;
    a [get] at the age [ttl + 1] returns [null] (absent), removes the
    stale entry from the store and counts a miss: the [misses] counter
    grows by one and the counters [hits], [sets] and [deletes] stay as
    they were. *)
Theorem get_after_set_ttl_boundary (c : t) (key : string) (v : JsValue) (ttl t0 : Z) :
  0 < ttl ->
  let c1 := state (set key v (Some ttl) t0 c) in
  let o_now := get key t0 c1 in
  let o_ttl := get key (t0 + ttl) (state o_now) in
  let o_late := get key (t0 + ttl + 1) (state o_ttl) in
  result o_now = Normal v /\
  result o_ttl = Normal v /\
  result o_late = Normal JNull /\
  store (state o_late) !! key = None /\
  Metrics.misses (metrics (state o_late)) = Metrics.misses (metrics (state o_ttl)) + 1 /\
  Metrics.hits (metrics (state o_late)) = Metrics.hits (metrics (state o_ttl)) /\
  Metrics.sets (metrics (state o_late)) = Metrics.sets (metrics (state o_ttl)) /\
  Metrics.deletes (metrics (state o_late)) = Metrics.deletes (metrics (state o_ttl)) /\
  result (get key (t0 + ttl + 1) c1) = Normal JNull.
Proof.
  intros Hpos. cbv zeta. rewrite set_outcome. cbn [state default from_option id].
  set (e0 := {| CacheEntry.value := v; CacheEntry.createdAt := t0; CacheEntry.ttl := ttl;
                CacheEntry.hits := 0; CacheEntry.lastAccessed := t0 |}).
  set (c1 := {| store := <[key := e0]> (store c); metrics := Metrics.incr_sets (metrics c) |}).
  assert (H1 : store c1 !! key = Some e0) by apply lookup_insert_eq.
  rewrite (get_live key t0 c1 e0 H1) by (cbn; lia).
  cbn [state result].
  set (c2 := {| store := <[key := CacheEntry.hit_at t0 e0]> (store c1);
                metrics := Metrics.incr_hits (metrics c1) |}).
  assert (H2 : store c2 !! key = Some (CacheEntry.hit_at t0 e0)) by apply lookup_insert_eq.
  rewrite (get_live key (t0 + ttl) c2 _ H2) by (cbn; lia).
  cbn [state result].
  set (e2 := CacheEntry.hit_at (t0 + ttl) (CacheEntry.hit_at t0 e0)).
  set (c3 := {| store := <[key := e2]> (store c2); metrics := Metrics.incr_hits (metrics c2) |}).
  assert (H3 : store c3 !! key = Some e2) by apply lookup_insert_eq.
  rewrite (get_expired key (t0 + ttl + 1) c3 _ H3) by (cbn; lia).
  rewrite (get_expired key (t0 + ttl + 1) c1 _ H1) by (cbn; lia).
  cbn [state result store metrics].
  rewrite lookup_delete_eq. repeat split; reflexivity.
Qed.

Lemma get_after_set_ttl_boundary_witness :
  let c1 := state (set "k" (JString "v") (Some 60000) 1000 constructor) in
  let o_now := get "k" 1000 c1 in
  let o_ttl := get "k" (1000 + 60000) (state o_now) in
  let o_late := get "k" (1000 + 60000 + 1) (state o_ttl) in
  result o_now = Normal (JString "v") /\
  result o_ttl = Normal (JString "v") /\
  result o_late = Normal JNull /\
  store (state o_late) !! "k" = None /\
  Metrics.misses (metrics (state o_late)) = Metrics.misses (metrics (state o_ttl)) + 1 /\
  Metrics.hits (metrics (state o_late)) = Metrics.hits (metrics (state o_ttl)) /\
  Metrics.sets (metrics (state o_late)) = Metrics.sets (metrics (state o_ttl)) /\
  Metrics.deletes (metrics (state o_late)) = Metrics.deletes (metrics (state o_ttl)) /\
  result (get "k" (1000 + 60000 + 1) c1) = Normal JNull.
Proof.
  apply (get_after_set_ttl_boundary constructor "k" (JString "v") 60000 1000). lia.
Defined.

(** C8: [delete(key)] never throws and returns whether an entry existed:
    on an absent key it returns [false] and leaves the cache as it was;
    on a present key it returns [true], removes the entry and adds one to
    the [deletes] counter, the counters [hits], [misses] and [sets]
    staying as they were; a second [delete] of the same key returns
    [false] and changes nothing. *)
Theorem delete_idempotent (c : t) (key : string) (now now' : Z) :
  let present := bool_decide (is_Some (store c !! key)) in
  let o1 := delete key now c in
  let o2 := delete key now' (state o1) in
  result o1 = Normal present /\
  state o1 = (if present
              then {| store := base.delete key (store c);
                      metrics := {| Metrics.hits := Metrics.hits (metrics c);
                                    Metrics.misses := Metrics.misses (metrics c);
                                    Metrics.sets := Metrics.sets (metrics c);
                                    Metrics.deletes := Metrics.deletes (metrics c) + 1 |} |}
              else c) /\
  store (state o1) !! key = None /\
  result o2 = Normal false /\
  state o2 = state o1.
Proof.
  cbv zeta. rewrite delete_outcome.
  assert (Hgone : forall mt, delete key now'
                    {| store := base.delete key (store c); metrics := mt |}
                  = mkOutcome (Normal false)
                      {| store := base.delete key (store c); metrics := mt |} []).
  { intros mt. rewrite delete_outcome. cbn [store metrics].
    rewrite bool_decide_eq_false_2.
    - rewrite delete_delete_eq. reflexivity.
    - rewrite lookup_delete_eq. intros [x Hx]. discriminate. }
  destruct (bool_decide (is_Some (store c !! key))) eqn:Hp.
  - cbn [result state]. rewrite Hgone. cbn [result state store].
    rewrite lookup_delete_eq. repeat split; reflexivity.
  - apply bool_decide_eq_false_1 in Hp.
    assert (Hk : store c !! key = None).
    { destruct (store c !! key) eqn:E; [exfalso; apply Hp; eauto | reflexivity]. }
    cbn [result state]. rewrite Hgone. cbn [result state store].
    rewrite (delete_id _ _ Hk). destruct c; cbn in *. repeat split; auto.
Qed.

End CacheClaims.

(** ** TTL cache: [getOrSet] *)

Section GetOrSet.
Import CacheManager.
Context {X : Type}.
Implicit Types (fetchFn : FetchFn X) (x : X) (c : t).

(** The lookup hits: the cached value is returned, the callback is not
    invoked. *)
Lemma getOrSet_hit key fetchFn ttl settledAt now c x v :
  result (get key now c) = Normal v ->
  not_null v = true ->
  getOrSet key fetchFn ttl settledAt now (c, x)
  = mkOutcome (Normal v) (state (get key now c), x) (events (get key now c)).
Proof.
  intros Hr Hv. unfold getOrSet, bind, lift. cbn [fst snd].
  destruct (get key now c) as [r s ev]. cbn in Hr. subst r.
  cbn. rewrite Hv. cbn. rewrite app_nil_r. reflexivity.
Qed.

(** The lookup misses and the callback yields [v]: [v] is stored at the
    clock reading at which the fetch settled, and returned. *)
Lemma getOrSet_miss_fetched key fetchFn ttl settledAt now c x v :
  result (get key now c) = Normal JNull ->
  fst (fetchFn x) = Normal v ->
  getOrSet key fetchFn ttl settledAt now (c, x)
  = mkOutcome (Normal v)
      (state (set key v (Some (default 300000 ttl)) settledAt (state (get key now c))),
       snd (fetchFn x))
      (events (get key now c) ++ [Fetched; Logged Debug "Cache set" key]).
Proof.
  intros Hr Hf. unfold getOrSet, bind, lift, try_catch, invoke, resumed_at, ret.
  cbn [fst snd].
  destruct (get key now c) as [r s ev]. cbn in Hr. subst r.
  cbn [result state events not_null fst snd]. rewrite Hf.
  rewrite set_outcome. reflexivity.
Qed.

(** The lookup misses and the callback fails with [e]: the error is
    logged and thrown again; [set] is not reached. *)
Lemma getOrSet_miss_failed key fetchFn ttl settledAt now c x e :
  result (get key now c) = Normal JNull ->
  fst (fetchFn x) = Abrupt e ->
  getOrSet key fetchFn ttl settledAt now (c, x)
  = mkOutcome (Abrupt e)
      (state (get key now c), snd (fetchFn x))
      (events (get key now c)
         ++ [Fetched; Logged Error "Cache getOrSet fetch error" key]).
Proof.
  intros Hr Hf.
  unfold getOrSet, bind, lift, try_catch, invoke, resumed_at, ret, throw, logger.error, emit.
  cbn [fst snd].
  destruct (get key now c) as [r s ev]. cbn in Hr. subst r.
  cbn [result state events not_null fst snd]. rewrite Hf.
  reflexivity.
Qed.

Lemma fetch_count_app tr1 tr2 :
  fetch_count (tr1 ++ tr2) = (fetch_count tr1 + fetch_count tr2)%nat.
Proof. unfold fetch_count. rewrite List.filter_app, length_app. reflexivity. Qed.

(** [get] does not invoke any callback. *)
Lemma fetch_count_get key now c : fetch_count (events (get key now c)) = 0%nat.
Proof.
  destruct (store c !! key) as [e|] eqn:Hk.
  - destruct (Z_lt_le_dec (CacheEntry.ttl e) (now - CacheEntry.createdAt e)).
    + rewrite (get_expired key now c e) by assumption. reflexivity.
    + rewrite (get_live key now c e) by assumption. reflexivity.
  - rewrite get_absent by assumption. reflexivity.
Qed.

End GetOrSet.

Section GetOrSetClaims.
Import CacheManager.

(** What [get] does to the store and to the counters, whatever it finds. *)
Lemma get_effect key now c :
  store (state (get key now c)) !! key = entry_after_get now (store c !! key) /\
  (forall k, k <> key -> store (state (get key now c)) !! k = store c !! k) /\
  Metrics.sets (metrics (state (get key now c))) = Metrics.sets (metrics c).
Proof.
  unfold entry_after_get.
  destruct (store c !! key) as [e|] eqn:Hk.
  - destruct (Z_lt_le_dec (CacheEntry.ttl e) (now - CacheEntry.createdAt e)) as [Hold|Hyoung].
    + rewrite (get_expired key now c e) by assumption. cbn [state store metrics].
      replace (now - CacheEntry.createdAt e >? CacheEntry.ttl e) with true
        by (symmetry; rewrite Z.gtb_ltb; apply Z.ltb_lt; exact Hold).
      rewrite lookup_delete_eq. repeat split.
      intros k Hne. apply lookup_delete_ne. congruence.
    + rewrite (get_live key now c e) by assumption. cbn [state store metrics].
      replace (now - CacheEntry.createdAt e >? CacheEntry.ttl e) with false
        by (symmetry; rewrite Z.gtb_ltb; apply Z.ltb_ge; exact Hyoung).
      rewrite lookup_insert_eq. repeat split.
      intros k Hne. apply lookup_insert_ne. congruence.
  - rewrite get_absent by assumption. cbn [state store metrics]. rewrite Hk. auto.
Qed.

(** C4, as stated, fails: a callback that returns [null] is invoked by
    both of two calls made one millisecond apart with a time-to-live of
    one minute. *)
Lemma getOrSet_null_fetched_twice :
  let fn := constant_fetch (Normal JNull) in
  let o1 := getOrSet "k" fn (Some 60000) 1000 1000 (constructor, tt) in
  let o2 := getOrSet "k" fn (Some 60000) 1001 1001 (state o1) in
  fetch_count (events o1 ++ events o2) = 2%nat /\
  fetch_count (events o1 ++ events o2) <> 1%nat.
Proof. split; [vm_compute; reflexivity | vm_compute; discriminate]. Qed.

(** C4, amended: for every key that the cache does not serve at the
    first call (its lookup returns [null]), every time-to-live and every
    callback whose invocation succeeds with a value other than [null],
    two calls of [getOrSet], the second made once the first one's fetch
    has settled ([settled1 <= called2]: the value is stored only after
    the [await], so a call made while the fetch is pending is not
    covered) and no later than [ttl] milliseconds after that, invoke
    the callback exactly once: the first call invokes and caches, the
    second is served from the cache. *)
Theorem getOrSet_fetches_once {X : Type} (fetchFn : FetchFn X) (c : t) (x : X)
    (key : string) (ttl called1 settled1 called2 settled2 : Z) (v : JsValue) :
  result (get key called1 c) = Normal JNull ->
  fst (fetchFn x) = Normal v ->
  v <> JNull ->
  called1 <= settled1 ->
  settled1 <= called2 ->
  called2 - settled1 <= ttl ->
  let o1 := getOrSet key fetchFn (Some ttl) settled1 called1 (c, x) in
  let o2 := getOrSet key fetchFn (Some ttl) settled2 called2 (state o1) in
  result o1 = Normal v /\
  result o2 = Normal v /\
  fetch_count (events o1) = 1%nat /\
  fetch_count (events o2) = 0%nat /\
  fetch_count (events o1 ++ events o2) = 1%nat /\
  snd (state o2) = snd (fetchFn x).
Proof.
  intros Hmiss Hf Hnn Hawait Hafter Hin. cbv zeta.
  assert (Hv : not_null v = true) by (destruct v; solve [reflexivity | congruence]).
  rewrite (getOrSet_miss_fetched key fetchFn (Some ttl) settled1 called1 c x v Hmiss Hf).
  cbn [state result events default from_option id]. rewrite set_outcome. cbn [state default from_option id].
  set (c0 := state (get key called1 c)).
  set (e1 := {| CacheEntry.value := v; CacheEntry.createdAt := settled1;
                CacheEntry.ttl := ttl; CacheEntry.hits := 0;
                CacheEntry.lastAccessed := settled1 |}).
  set (c1 := {| store := <[key := e1]> (store c0); metrics := Metrics.incr_sets (metrics c0) |}).
  assert (H1 : store c1 !! key = Some e1) by apply lookup_insert_eq.
  assert (Hg : get key called2 c1
               = mkOutcome (Normal v)
                   {| store := <[key := CacheEntry.hit_at called2 e1]> (store c1);
                      metrics := Metrics.incr_hits (metrics c1) |}
                   [Logged Debug "Cache hit" key]).
  { apply (get_live key called2 c1 e1 H1). cbn. lia. }
  rewrite (getOrSet_hit key fetchFn (Some ttl) settled2 called2 c1 (snd (fetchFn x)) v)
    by (try rewrite Hg; auto).
  rewrite Hg. cbn [state result events snd].
  rewrite !fetch_count_app, fetch_count_get. repeat split; reflexivity.
Qed.

Lemma getOrSet_fetches_once_witness :
  let fn := constant_fetch (Normal (JString "board")) in
  let o1 := getOrSet "k" fn (Some 60000) 1005 1000 (constructor, tt) in
  let o2 := getOrSet "k" fn (Some 60000) 61005 61005 (state o1) in
  result o1 = Normal (JString "board") /\
  result o2 = Normal (JString "board") /\
  fetch_count (events o1) = 1%nat /\
  fetch_count (events o2) = 0%nat /\
  fetch_count (events o1 ++ events o2) = 1%nat /\
  snd (state o2) = snd (fn tt).
Proof.
  apply (getOrSet_fetches_once (constant_fetch (Normal (JString "board")))
           constructor tt "k" 60000 1000 1005 61005 61005 (JString "board"));
    first [reflexivity | discriminate | lia].
Defined.

(** C5, as stated, fails: with an expired entry under the key, a failing
    fetch still propagates, but the store is not what it was before the
    call (the lookup has removed the stale entry). *)
Lemma getOrSet_failure_changes_store :
  let c0 := state (set "k" (JNumber 1) (Some 10) 0 constructor) in
  let o := getOrSet "k" (constant_fetch (Abrupt (Failure "source down")))
             (Some 10) 100 100 (c0, tt) in
  result o = Abrupt (Failure "source down") /\
  store (fst (state o)) <> store c0.
Proof.
  split; [vm_compute; reflexivity |].
  intros Heq. apply (f_equal (fun s : gmap string CacheEntry.t => s !! "k")) in Heq.
  vm_compute in Heq. discriminate.
Qed.

(** C5, amended: if the lookup of [getOrSet] misses and the callback
    fails, the failure propagates to the caller (after being logged) and
    nothing is written: [set] is not reached, so the cache is exactly as
    the lookup [get(key)] left it.  Every other key keeps its entry and
    the [sets] counter is unchanged; under the key itself there is no
    entry afterwards, unless a live entry holding [null] was found, which
    stays with its hit recorded.  When the key was absent the store is
    unchanged. *)
Theorem getOrSet_failure_caches_nothing {X : Type} (fetchFn : FetchFn X) (c : t) (x : X)
    (key : string) (ttl : option Z) (settledAt now : Z) (e : JsError) :
  result (get key now c) = Normal JNull ->
  fst (fetchFn x) = Abrupt e ->
  let o := getOrSet key fetchFn ttl settledAt now (c, x) in
  result o = Abrupt e /\
  fst (state o) = state (get key now c) /\
  store (fst (state o)) !! key = entry_after_get now (store c !! key) /\
  (forall k, k <> key -> store (fst (state o)) !! k = store c !! k) /\
  Metrics.sets (metrics (fst (state o))) = Metrics.sets (metrics c) /\
  (store c !! key = None -> store (fst (state o)) = store c) /\
  fetch_count (events o) = 1%nat.
Proof.
  intros Hmiss Hf. cbv zeta.
  rewrite (getOrSet_miss_failed key fetchFn ttl settledAt now c x e Hmiss Hf).
  cbn [result state events fst].
  destruct (get_effect key now c) as (Hkey & Hother & Hsets).
  repeat split; try assumption.
  - intros Hk. rewrite get_absent by assumption. reflexivity.
  - rewrite fetch_count_app, fetch_count_get. reflexivity.
Qed.

Lemma getOrSet_failure_caches_nothing_witness :
  let fn := constant_fetch (Abrupt (Failure "source down")) in
  let o := getOrSet "k" fn (Some 10) 100 100 (constructor, tt) in
  result o = Abrupt (Failure "source down") /\
  fst (state o) = state (get "k" 100 constructor) /\
  store (fst (state o)) !! "k" = entry_after_get 100 (store constructor !! "k") /\
  (forall k, k <> "k" -> store (fst (state o)) !! k = store constructor !! k) /\
  Metrics.sets (metrics (fst (state o))) = Metrics.sets (metrics constructor) /\
  (store constructor !! "k" = None -> store (fst (state o)) = store constructor) /\
  fetch_count (events o) = 1%nat.
Proof.
  apply (getOrSet_failure_caches_nothing (constant_fetch (Abrupt (Failure "source down")))
           constructor tt "k" (Some 10) 100 100 (Failure "source down"));
    reflexivity.
Defined.

End GetOrSetClaims.

(** ** A cached [null] *)

Section CachedNull.
Import CacheManager.
Context {X : Type}.

(** When [get] answers [null]. *)
Lemma get_null_iff key now c :
  result (get key now c) = Normal JNull <->
  (store c !! key = None \/
   exists e, store c !! key = Some e /\
             (CacheEntry.ttl e < now - CacheEntry.createdAt e \/ CacheEntry.value e = JNull)).
Proof.
  destruct (store c !! key) as [e|] eqn:Hk.
  - destruct (Z_lt_le_dec (CacheEntry.ttl e) (now - CacheEntry.createdAt e)) as [Hold|Hyoung].
    + rewrite (get_expired key now c e) by assumption. cbn [result].
      split; [intros _; right; exists e; auto | reflexivity].
    + rewrite (get_live key now c e) by assumption. cbn [result]. split.
      * intros Hv. right. exists e. split; [reflexivity|]. right. congruence.
      * intros [Hn | (e' & He' & [Hold | Hv])]; [discriminate | |]; congruence || (inversion He'; subst; lia).
  - rewrite get_absent by assumption. cbn [result]. split; auto.
Qed.



End CachedNull.

Section CachedNullWitness.
Import CacheManager.


End CachedNullWitness.

(** ** Calls made while a fetch is pending *)

Section Await.
Import CacheManager.
Context {X : Type}.

(** A call that nothing interleaves with is its two turns run one after
    the other, the second at the clock reading [settledAt]. *)
Lemma getOrSet_as_two_turns (fetchFn : FetchFn X) key ttl settledAt now (w : t * X) :
  getOrSet key fetchFn ttl settledAt now w
  = match getOrSet_until_await key fetchFn now w with
    | mkOutcome (Normal suspended) w1 ev1 =>
        match getOrSet_after_await key ttl suspended settledAt w1 with
        | mkOutcome r w2 ev2 => mkOutcome r w2 (ev1 ++ ev2)
        end
    | mkOutcome (Abrupt e) w1 ev1 => mkOutcome (Abrupt e) w1 ev1
    end.
Proof.
  destruct w as [c x].
  unfold getOrSet, getOrSet_until_await, getOrSet_after_await, bind, lift, try_catch, invoke,
    resumed_at, complete, ret, throw, logger.error, emit.
  cbn [fst snd].
  destruct (get key now c) as [[v|e] s ev]; [|reflexivity].
  destruct (not_null v) eqn:Hv.
  - cbn. rewrite !app_nil_r. reflexivity.
  - cbn [fst snd]. destruct (fetchFn x) as [[value|error] x']; cbn [fst snd].
    + rewrite set_outcome. cbn. rewrite <- !app_assoc. reflexivity.
    + cbn. rewrite <- !app_assoc. reflexivity.
Qed.

(** A call made while the fetch of an earlier call on the same key is
    still pending finds nothing stored and invokes the callback as well:
    [getOrSet] stores the value only after the [await] and keeps no
    record of a fetch in flight.  This is why the single-fetch property
    of two calls is stated for a second call made after the first one's
    fetch has settled. *)
Lemma getOrSet_pending_call_fetches_again (fetchFn : FetchFn X) (c : t) (x : X)
    (key : string) (called1 called2 : Z) :
  result (get key called1 c) = Normal JNull ->
  let a1 := getOrSet_until_await key fetchFn called1 (c, x) in
  let a2 := getOrSet_until_await key fetchFn called2 (state a1) in
  result a1 = Normal (Awaiting (fst (fetchFn x))) /\
  result a2 = Normal (Awaiting (fst (fetchFn (snd (fetchFn x))))) /\
  fetch_count (events a1) = 1%nat /\
  fetch_count (events a2) = 1%nat.
Proof.
  intros Hmiss. cbv zeta.
  assert (Hturn : forall now c0 x0, result (get key now c0) = Normal JNull ->
            getOrSet_until_await key fetchFn now (c0, x0)
            = mkOutcome (Normal (Awaiting (fst (fetchFn x0))))
                (state (get key now c0), snd (fetchFn x0))
                (events (get key now c0) ++ [Fetched])).
  { intros now c0 x0 H0. unfold getOrSet_until_await, bind, lift, invoke. cbn [fst snd].
    destruct (get key now c0) as [r s ev]. cbn in H0. subst r. cbn. reflexivity. }
  assert (Hagain : result (get key called2 (state (get key called1 c))) = Normal JNull).
  { apply get_null_iff. destruct (get_effect key called1 c) as (Hk & _ & _).
    rewrite Hk. apply get_null_iff in Hmiss. unfold entry_after_get.
    destruct (store c !! key) as [e|]; [|left; reflexivity].
    destruct Hmiss as [Hn | (e' & He' & Hc)]; [discriminate|]. inversion He'; subst e'.
    destruct (called1 - CacheEntry.createdAt e >? CacheEntry.ttl e) eqn:Hb;
      [left; reflexivity|].
    right. eexists. split; [reflexivity|]. right. cbn.
    destruct Hc as [Hold | Hv]; [|exact Hv].
    exfalso. rewrite Z.gtb_ltb in Hb. apply Z.ltb_ge in Hb. lia. }
  rewrite (Hturn called1 c x Hmiss). cbn [state result events].
  rewrite (Hturn called2 _ _ Hagain). cbn [state result events].
  rewrite !fetch_count_app, !fetch_count_get. repeat split; reflexivity.
Qed.

End Await.

(** ** Statistics *)

Section Stats.
Import CacheManager.

Lemma sum_serialized_fails values :
  forall bytes v e,
    In v values ->
    serialized_length v = Abrupt e ->
    exists e', sum_serialized values bytes = Abrupt e'.
Proof.
  induction values as [|w rest IH]; intros bytes v e Hin Hv; [destruct Hin|].
  cbn [sum_serialized]. destruct Hin as [-> | Hin].
  - rewrite Hv. eauto.
  - destruct (serialized_length w) as [len|e']; [|eauto].
    apply (IH _ v e Hin Hv).
Qed.

(** Nothing in [getStats] or [estimateMemoryUsage] catches an exception:
    whenever a stored value cannot be serialized, or serializes to
    [undefined], [getStats] throws and logs nothing. *)
Lemma getStats_throws_when_unserializable c key entry e now :
  store c !! key = Some entry ->
  serialized_length (CacheEntry.value entry) = Abrupt e ->
  exists e', getStats now c = mkOutcome (Abrupt e') c [].
Proof.
  intros Hk Hv.
  destruct (sum_serialized_fails (CacheEntry.value <$> (map_to_list (store c)).*2) 0
              (CacheEntry.value entry) e) as [e' He'].
  - apply list_elem_of_In. apply list_elem_of_fmap. exists entry. split; [reflexivity|].
    apply list_elem_of_fmap. exists (key, entry). split; [reflexivity|].
    apply elem_of_map_to_list. exact Hk.
  - exact Hv.
  - exists e'. unfold getStats, estimateMemoryUsage, bind, this, complete.
    rewrite He'. reflexivity.
Qed.

(** C6, at a failing input: with the value [undefined] cached under a
    key, [getStats] throws the [TypeError] raised inside
    [estimateMemoryUsage]; the error is neither caught nor logged, and no
    placeholder size is reported. *)
Theorem getStats_throws_on_cached_undefined :
  let c := state (set "k" JUndefined None 1000 constructor) in
  getStats 2000 c
  = mkOutcome
      (Abrupt (TypeError "Cannot read properties of undefined (reading 'length')")) c [].
Proof. vm_compute. reflexivity. Qed.

(** The same with a BigInt or a cyclic structure in the cache. *)
Lemma getStats_throws_on_cached_bigint :
  let c := state (set "k" (JBigInt 1) None 1000 constructor) in
  result (getStats 2000 c) = Abrupt (TypeError "Do not know how to serialize a BigInt").
Proof. vm_compute. reflexivity. Qed.

(** The serializer on a nested value: [undefined] is dropped from an
    object and written [null] in an array, a backslash is escaped. *)
Lemma serialized_length_example :
  serialized_length
    (JObject [("a", JNumber (-5)); ("b", JUndefined);
              ("c", JArray [JUndefined; JString "x\y"])])
  = Normal 26.
Proof. vm_compute. reflexivity. Qed.

(** With serializable values only, [getStats] reports the estimate. *)
Lemma getStats_reports_size :
  let c := state (set "k" (JArray [JNumber 1; JString "a"; JNull]) None 1000 constructor) in
  estimatedMemory <$> match result (getStats 2000 c) with
                      | Normal st => Some st
                      | Abrupt _ => None
                      end
  = Some "0.02 KB".
Proof. vm_compute. reflexivity. Qed.

End Stats.

(** ** Per-entry statistics *)

Section EntryStats.

(** The identifier [hits] is not declared by the module. *)
Lemma hits_not_declared : assoc "hits" module_scope = None.
Proof. reflexivity. Qed.

(** C10: for every cache entry, a call of its [getStats()] method throws
    a [ReferenceError]: the object literal reads the bare identifier
    [hits], which nothing in [cache.js] declares (the counter is the
    property [this.hits]), so on every host whose global object has no
    property [hits] the call never returns normally. *)
Theorem CacheEntry_getStats_throws {S : Type} (globalThis : gmap string JsValue)
    (e : CacheEntry.t) (now : Z) (s : S) :
  globalThis !! "hits" = None ->
  CacheEntry.getStats globalThis e now s = mkOutcome (Abrupt (ReferenceError "hits")) s [].
Proof.
  intros Hg. unfold CacheEntry.getStats, resolve, bind, throw.
  rewrite hits_not_declared, Hg. reflexivity.
Qed.

Lemma CacheEntry_getStats_throws_witness :
  CacheEntry.getStats (∅ : gmap string JsValue)
    {| CacheEntry.value := JString "v"; CacheEntry.createdAt := 1000; CacheEntry.ttl := 60000;
       CacheEntry.hits := 3; CacheEntry.lastAccessed := 2000 |} 3000 tt
  = mkOutcome (Abrupt (ReferenceError "hits")) tt [].
Proof.
  apply (CacheEntry_getStats_throws (S := unit) ∅). reflexivity.
Defined.

End EntryStats.

(** * Further properties of the rate limiters *)

Section CooldownMore.
Import CommandCooldownManager.

Ltac run_cooldown :=
  unfold checkCooldown, set_new_cooldown, resetCooldown, bind, this, Date_now, assign, ret,
    logger.warn, logger.info, emit, set_cooldowns; cbn.

(** What [resetCooldown] does to the records. *)
Lemma resetCooldown_effect m u c now u' c' :
  cooldown_of (state (resetCooldown u c now m)) u' c'
  = if decide (u' = u /\ c' = c) then None else cooldown_of m u' c'.
Proof.
  unfold cooldown_of. run_cooldown.
  destruct (cooldowns m !! u) as [cmds|] eqn:Hu; cbn.
  - destruct (decide (u' = u)) as [->|Hne].
    + rewrite lookup_insert_eq, Hu. cbn.
      destruct (decide (c' = c)) as [->|Hc].
      * rewrite lookup_delete_eq. rewrite decide_True by auto. reflexivity.
      * rewrite lookup_delete_ne by congruence.
        rewrite decide_False by (intros [_ ?]; contradiction). reflexivity.
    + rewrite lookup_insert_ne by congruence.
      rewrite decide_False by (intros [? _]; contradiction). reflexivity.
  - destruct (decide (u' = u /\ c' = c)) as [[-> ->]|Hne]; [|reflexivity].
    rewrite Hu. cbn. apply lookup_empty.
Qed.

Lemma resetCooldown_baseEscalation m u c now :
  baseEscalation (state (resetCooldown u c now m)) = baseEscalation m.
Proof.
  run_cooldown. destruct (cooldowns m !! u); reflexivity.
Qed.

(** X1: after [resetCooldown(userId, commandName)] the next check of that
    command by that user is allowed, whatever the record held, and the
    cooldown it installs is the base cooldown: denied attempts counted
    before the reset do not escalate it. *)
Theorem resetCooldown_restores_availability (m : t) (u c : string) (cd : option Z)
    (t_reset t_check : Z) :
  let m1 := state (resetCooldown u c t_reset m) in
  let o := checkCooldown u c cd t_check m1 in
  result (resetCooldown u c t_reset m) = Normal tt /\
  result o = Normal cooldown_allowed /\
  cooldown_of (state o) u c
    = Some {| CooldownData.expiresAt := t_check + default 5000 cd;
              CooldownData.violations := 0 |}.
Proof.
  cbv zeta. split.
  - run_cooldown. destruct (cooldowns m !! u); reflexivity.
  - assert (Hnone : cooldown_of (state (resetCooldown u c t_reset m)) u c = None).
    { rewrite resetCooldown_effect. rewrite decide_True by auto. reflexivity. }
    destruct (checkCooldown_first_use _ u c cd t_check Hnone) as (R & S & _). auto.
Qed.

(** X2: [resetCooldown] touches no other (user, command) pair. *)
Theorem resetCooldown_frame (m : t) (u c u' c' : string) (now : Z) :
  u' <> u \/ c' <> c ->
  cooldown_of (state (resetCooldown u c now m)) u' c' = cooldown_of m u' c'.
Proof.
  intros Hne. rewrite resetCooldown_effect.
  rewrite decide_False by (intros [? ?]; destruct Hne; contradiction). reflexivity.
Qed.

Lemma resetCooldown_frame_witness :
  cooldown_of (state (resetCooldown "ann" "daily" 2000
                        (state (checkCooldown "bob" "daily" None 1000 constructor))))
    "bob" "daily"
  = cooldown_of (state (checkCooldown "bob" "daily" None 1000 constructor)) "bob" "daily".
Proof.
  apply (resetCooldown_frame _ "ann" "daily" "bob" "daily" 2000). left. discriminate.
Defined.

(** X3: a check of one (user, command) pair leaves the record of every
    other pair as it was. *)
Theorem checkCooldown_frame (m : t) (u c u' c' : string) (cd : option Z) (now : Z) :
  u' <> u \/ c' <> c ->
  cooldown_of (state (checkCooldown u c cd now m)) u' c' = cooldown_of m u' c'.
Proof.
  intros Hne. unfold cooldown_of. run_cooldown.
  assert (Hin : forall (d : CooldownData.t) (cmds : gmap string CooldownData.t)
                   (M : gmap string (gmap string CooldownData.t)),
            default ∅ (<[u := <[c := d]> cmds]> M !! u') !! c'
            = (if decide (u' = u) then cmds else default ∅ (M !! u')) !! c').
  { intros d cmds M. destruct (decide (u' = u)) as [->|Hu'].
    - rewrite lookup_insert_eq. cbn. apply lookup_insert_ne.
      destruct Hne; congruence.
    - rewrite lookup_insert_ne by congruence. reflexivity. }
  destruct (cooldowns m !! u) as [cmds|] eqn:Hu; js_eval.
  - destruct (cmds !! c) as [d|] eqn:Hd; js_eval.
    + destruct (now >=? CooldownData.expiresAt d) eqn:Hge; js_eval; rewrite Hin;
        destruct (decide (u' = u)) as [->|]; rewrite ?Hu; reflexivity.
    + rewrite Hin. destruct (decide (u' = u)) as [->|]; rewrite ?Hu; reflexivity.
  - rewrite Hin. destruct (decide (u' = u)) as [->|].
    + rewrite Hu. reflexivity.
    + rewrite lookup_insert_ne by congruence. reflexivity.
Qed.

Lemma checkCooldown_frame_witness :
  cooldown_of (state (checkCooldown "ann" "daily" None 2000
                        (state (checkCooldown "bob" "daily" None 1000 constructor))))
    "bob" "daily"
  = cooldown_of (state (checkCooldown "bob" "daily" None 1000 constructor)) "bob" "daily".
Proof.
  apply (checkCooldown_frame _ "ann" "daily" "bob" "daily" None 2000). left. discriminate.
Defined.

(** X4: the retry hint of a denied check is the least whole number of
    seconds to wait: it is at least one, a check made that many seconds
    later is allowed, and a check made one second earlier than that is
    still denied. *)
Theorem checkCooldown_retryAfter_is_tight (m : t) (u c : string) (cd : option Z)
    (now : Z) (d : CooldownData.t) :
  cooldown_of m u c = Some d ->
  now < CooldownData.expiresAt d ->
  let r := ceil_div_1000 (CooldownData.expiresAt d - now) in
  let o := checkCooldown u c cd now m in
  result o = Normal (cooldown_denied r (CooldownData.violations d + 1)) /\
  1 <= r /\
  result (checkCooldown u c cd (now + 1000 * r) (state o)) = Normal cooldown_allowed /\
  result (checkCooldown u c cd (now + 1000 * (r - 1)) (state o))
    = Normal (cooldown_denied (ceil_div_1000 (CooldownData.expiresAt d - (now + 1000 * (r - 1))))
                              (CooldownData.violations d + 1 + 1)).
Proof.
  intros Hd Hlt. cbv zeta.
  pose proof (ceil_div_1000_spec (CooldownData.expiresAt d - now)) as Hceil.
  destruct (checkCooldown_active m u c cd now d Hd Hlt) as (R & S & _).
  set (o := checkCooldown u c cd now m) in *. clearbody o.
  set (r := ceil_div_1000 (CooldownData.expiresAt d - now)) in *.
  split; [exact R|]. split; [lia|]. split.
  - destruct (checkCooldown_elapsed (state o) u c cd (now + 1000 * r) _ S) as (R2 & _);
      [cbn; lia | exact R2].
  - destruct (checkCooldown_active (state o) u c cd (now + 1000 * (r - 1)) _ S) as (R2 & _);
      [cbn; lia | exact R2].
Qed.

Lemma checkCooldown_retryAfter_is_tight_witness :
  let m := state (checkCooldown "ann" "daily" None 1000 constructor) in
  let d := {| CooldownData.expiresAt := 6000; CooldownData.violations := 0 |} in
  let r := ceil_div_1000 (CooldownData.expiresAt d - 3500) in
  let o := checkCooldown "ann" "daily" None 3500 m in
  result o = Normal (cooldown_denied r (CooldownData.violations d + 1)) /\
  1 <= r /\
  result (checkCooldown "ann" "daily" None (3500 + 1000 * r) (state o)) = Normal cooldown_allowed /\
  result (checkCooldown "ann" "daily" None (3500 + 1000 * (r - 1)) (state o))
    = Normal (cooldown_denied (ceil_div_1000 (CooldownData.expiresAt d - (3500 + 1000 * (r - 1))))
                              (CooldownData.violations d + 1 + 1)).
Proof.
  apply (checkCooldown_retryAfter_is_tight
           (state (checkCooldown "ann" "daily" None 1000 constructor)) "ann" "daily" None 3500
           {| CooldownData.expiresAt := 6000; CooldownData.violations := 0 |});
    [vm_compute; reflexivity | cbn; lia].
Defined.

End CooldownMore.

Section CooldownSweep.
Import CommandCooldownManager.

Lemma active_filter_lookup now (cmds : gmap string CooldownData.t) c :
  filter (fun kv : string * CooldownData.t =>
            negb (now >=? CooldownData.expiresAt (snd kv)) = true) cmds !! c
  = active_at now (cmds !! c).
Proof.
  rewrite map_lookup_filter. unfold active_at.
  destruct (cmds !! c) as [d|]; cbn; [|reflexivity].
  destruct (now >=? CooldownData.expiresAt d); cbn.
  - rewrite option_guard_False by discriminate. reflexivity.
  - rewrite option_guard_True by reflexivity. reflexivity.
Qed.

Lemma autoCleanup_cooldowns m now :
  cooldowns (state (autoCleanup now m))
  = filter (fun kv : string * gmap string CooldownData.t => size (snd kv) <> 0%nat)
      ((fun commands : gmap string CooldownData.t =>
          filter (fun kv : string * CooldownData.t =>
                    negb (now >=? CooldownData.expiresAt (snd kv)) = true) commands)
       <$> cooldowns m).
Proof.
  unfold autoCleanup, bind, this, Date_now, assign, ret, logger.debug, emit, set_cooldowns.
  cbn. match goal with |- context [if ?b then _ else _] => destruct b end; reflexivity.
Qed.

Lemma autoCleanup_record m now u c :
  cooldown_of (state (autoCleanup now m)) u c = active_at now (cooldown_of m u c).
Proof.
  unfold cooldown_of. rewrite autoCleanup_cooldowns.
  rewrite map_lookup_filter, lookup_fmap.
  destruct (cooldowns m !! u) as [cmds|] eqn:Hu; cbn.
  - set (kept := filter _ cmds).
    destruct (decide (size kept <> 0%nat)) as [Hs|Hs].
    + rewrite option_guard_True by exact Hs. cbn. apply active_filter_lookup.
    + rewrite option_guard_False by exact Hs. cbn.
      assert (Hk : kept = ∅) by (apply map_size_empty_iff; lia).
      rewrite <- (active_filter_lookup now cmds c). fold kept. rewrite Hk. reflexivity.
  - rewrite !lookup_empty. reflexivity.
Qed.

(** X5: the sweep of the cooldown manager removes exactly the expired
    records: a record that is still active at the time of the sweep is
    kept unchanged, every other one is gone, no user is left with an
    empty command map, and the configuration ([cleanupInterval],
    [maxViolations] and [baseEscalation]) is untouched. *)
Theorem cooldown_autoCleanup_removes_expired (m : t) (now : Z) (u c : string) :
  cooldown_of (state (autoCleanup now m)) u c = active_at now (cooldown_of m u c) /\
  cooldowns (state (autoCleanup now m)) !! u <> Some ∅ /\
  cleanupInterval (state (autoCleanup now m)) = cleanupInterval m /\
  maxViolations (state (autoCleanup now m)) = maxViolations m /\
  baseEscalation (state (autoCleanup now m)) = baseEscalation m /\
  result (autoCleanup now m) = Normal tt.
Proof.
  split; [apply autoCleanup_record|split].
  - rewrite autoCleanup_cooldowns. intros Hu.
    apply map_lookup_filter_Some_1_2 in Hu. cbn in Hu. apply Hu. apply map_size_empty.
  - unfold autoCleanup, bind, this, Date_now, assign, ret, logger.debug, emit, set_cooldowns.
    cbn. match goal with |- context [if ?b then _ else _] => destruct b end;
      repeat split; reflexivity.
Qed.

(** X6: the escalation does not survive a sweep: when the sweep runs after a
    record has expired, the user's next check installs the base
    cooldown, however many denied attempts the record had counted. *)
Theorem cooldown_sweep_forgets_violations (m : t) (u c : string) (cd : option Z)
    (d : CooldownData.t) (t_sweep t : Z) :
  cooldown_of m u c = Some d ->
  CooldownData.expiresAt d <= t_sweep ->
  let o := checkCooldown u c cd t (state (autoCleanup t_sweep m)) in
  result o = Normal cooldown_allowed /\
  cooldown_of (state o) u c
    = Some {| CooldownData.expiresAt := t + default 5000 cd;
              CooldownData.violations := 0 |}.
Proof.
  intros Hd Hexp. cbv zeta.
  pose proof (autoCleanup_record m t_sweep u c) as Hrec.
  rewrite Hd in Hrec. cbn [active_at] in Hrec.
  replace (t_sweep >=? CooldownData.expiresAt d) with true in Hrec
    by (symmetry; rewrite Z.geb_leb; apply Z.leb_le; exact Hexp).
  destruct (checkCooldown_first_use _ u c cd t Hrec) as (R & S & _). auto.
Qed.

Lemma cooldown_sweep_forgets_violations_witness :
  let m := snd (replay (checkCooldown "ann" "daily" None) [1000; 2000; 3000] constructor) in
  let o := checkCooldown "ann" "daily" None 8000 (state (autoCleanup 7000 m)) in
  result o = Normal cooldown_allowed /\
  cooldown_of (state o) "ann" "daily"
    = Some {| CooldownData.expiresAt := 8000 + default 5000 None;
              CooldownData.violations := 0 |}.
Proof.
  apply (cooldown_sweep_forgets_violations
           (snd (replay (checkCooldown "ann" "daily" None) [1000; 2000; 3000] constructor))
           "ann" "daily" None
           {| CooldownData.expiresAt := 6000; CooldownData.violations := 2 |} 7000 8000);
    [vm_compute; reflexivity | cbn; lia].
Defined.

End CooldownSweep.

Section SpamMore.
Import AntiSpamManager.

(** The two ways a check can go. *)
Lemma checkSpam_cases m u now :
  let kept := in_window m now (history m u) in
  (Z.of_nat (length kept) < messageThreshold (thresholds m) /\
   result (checkSpam u now m) = Normal admitted /\
   history (state (checkSpam u now m)) u = kept ++ [now])
  \/
  (messageThreshold (thresholds m) <= Z.of_nat (length kept) /\
   result (checkSpam u now m) = Normal (flagged m) /\
   history (state (checkSpam u now m)) u = history m u).
Proof.
  cbv zeta.
  destruct (Z.lt_ge_cases (Z.of_nat (length (in_window m now (history m u))))
              (messageThreshold (thresholds m))) as [Hlt|Hge].
  - left. destruct (checkSpam_admits m u now Hlt) as (R & S & _). auto.
  - right. destruct (checkSpam_flags m u now Hge) as (R & S & _). auto.
Qed.

(** A check of one user does not touch the history of another. *)
Lemma checkSpam_other_user m u now u' :
  u' <> u ->
  history (state (checkSpam u now m)) u' = history m u'.
Proof.
  intros Hne. unfold history.
  unfold checkSpam, bind, this, Date_now, assign, ret, logger.warn, emit, set_history. cbn.
  destruct (messageHistory m !! u) as [h|] eqn:Hh; cbn.
  - rewrite Hh. cbn.
    match goal with |- context [if ?b then _ else _] => destruct b end; cbn.
    + reflexivity.
    + rewrite lookup_insert_ne by congruence. reflexivity.
  - rewrite lookup_insert_eq. cbn.
    match goal with |- context [if ?b then _ else _] => destruct b end; cbn.
    + rewrite lookup_insert_ne by congruence. reflexivity.
    + rewrite !lookup_insert_ne by congruence. reflexivity.
Qed.

Lemma recent_recent window lo now l :
  lo <= now -> recent window now (recent window lo l) = recent window now l.
Proof.
  intros Hle. unfold recent. induction l as [|t l IH]; [reflexivity|].
  cbn. destruct (Z.ltb_spec (lo - t) window) as [Hlo|Hlo]; cbn.
  - rewrite IH. reflexivity.
  - destruct (Z.ltb_spec (now - t) window); [lia | exact IH].
Qed.

Lemma recent_snoc window now l :
  0 < window -> recent window now (l ++ [now]) = recent window now l ++ [now].
Proof.
  intros Hw. unfold recent. rewrite List.filter_app. cbn.
  replace (now - now <? window) with true by (symmetry; apply Z.ltb_lt; lia).
  reflexivity.
Qed.

(** The window bound, from any point of a run: [P] are the admitted
    timestamps so far and [lo] the time of the last admitted one. *)
Lemma admitted_times_window_bound u times :
  forall m P lo,
    0 < timeWindow (thresholds m) ->
    history m u = recent (timeWindow (thresholds m)) lo P ->
    Forall (fun t => lo <= t) times ->
    StronglySorted Z.le times ->
    forall A1 a A2,
      admitted_times u times m = A1 ++ a :: A2 ->
      Z.of_nat (length (recent (timeWindow (thresholds m)) a (P ++ A1 ++ [a])))
        <= messageThreshold (thresholds m).
Proof.
  induction times as [|now rest IH]; intros m P lo Hw Hh Hlo Hsorted A1 a A2 HA.
  - destruct A1; discriminate.
  - inversion Hlo as [|? ? Hnow Hlo']; subst.
    inversion Hsorted as [|? ? Hsorted' Hrest]; subst.
    pose proof (checkSpam_thresholds m u now) as Hth.
    unfold admitted_times in HA. cbn [times_where] in HA.
    assert (Hkept : in_window m now (history m u)
                    = recent (timeWindow (thresholds m)) now P).
    { rewrite Hh. apply recent_recent. exact Hnow. }
    destruct (checkSpam_cases m u now) as [(Hlt & R & S) | (Hge & R & S)];
      rewrite R in HA; cbn [admitted flagged isSpamming negb] in HA.
    + rewrite Hkept in Hlt, S.
      destruct A1 as [|a1 A1].
      * cbn [app] in HA. injection HA as <- _.
        cbn [app]. rewrite recent_snoc by exact Hw. rewrite length_app. cbn [length]. lia.
      * cbn [app] in HA. injection HA as <- HA.
        specialize (IH (state (checkSpam u now m)) (P ++ [now]) now).
        rewrite Hth in IH.
        replace (P ++ (now :: A1) ++ [a]) with ((P ++ [now]) ++ A1 ++ [a])
          by (rewrite <- !app_assoc; reflexivity).
        apply (IH Hw) with (A2 := A2); try assumption.
        rewrite S. symmetry. apply recent_snoc. exact Hw.
    + specialize (IH (state (checkSpam u now m)) P lo).
      rewrite Hth in IH.
      apply (IH Hw) with (A2 := A2); try assumption.
      rewrite S. exact Hh.
Qed.

(** X7: the rate guarantee of the detector: along any run of checks of a
    user made at non-decreasing clock readings, starting without
    history, each admitted message has at most [messageThreshold]
    admitted messages (itself included) in the [timeWindow] that ends
    with it. *)
Theorem checkSpam_admits_at_most_threshold_per_window (m : t) (u : string)
    (times A1 A2 : list Z) (a : Z) :
  0 < timeWindow (thresholds m) ->
  history m u = [] ->
  StronglySorted Z.le times ->
  admitted_times u times m = A1 ++ a :: A2 ->
  Z.of_nat (length (recent (timeWindow (thresholds m)) a (A1 ++ [a])))
    <= messageThreshold (thresholds m).
Proof.
  intros Hw Hh Hsorted HA.
  destruct times as [|t0 rest]; [destruct A1; discriminate|].
  apply (admitted_times_window_bound u (t0 :: rest) m [] t0 Hw) with (A2 := A2).
  - rewrite Hh. reflexivity.
  - constructor; [lia|]. inversion Hsorted; subst. assumption.
  - exact Hsorted.
  - exact HA.
Qed.

Lemma checkSpam_admits_at_most_threshold_per_window_witness :
  admitted_times "u" [1000; 1001; 1002; 1003; 1004; 1005; 6000; 6001] constructor
    = [1000; 1001; 1002; 1003; 1004] ++ 6000 :: [6001]
  /\ Z.of_nat (length (recent (timeWindow (thresholds constructor)) 6000
                         ([1000; 1001; 1002; 1003; 1004] ++ [6000])))
     <= messageThreshold (thresholds constructor).
Proof.
  assert (H : admitted_times "u" [1000; 1001; 1002; 1003; 1004; 1005; 6000; 6001] constructor
              = [1000; 1001; 1002; 1003; 1004] ++ 6000 :: [6001])
    by (vm_compute; reflexivity).
  split; [exact H|].
  apply (checkSpam_admits_at_most_threshold_per_window constructor "u"
           [1000; 1001; 1002; 1003; 1004; 1005; 6000; 6001]
           [1000; 1001; 1002; 1003; 1004] [6001] 6000).
  - cbn; lia.
  - reflexivity.
  - repeat (constructor; [| repeat (constructor; try lia)]). constructor.
  - exact H.
Defined.

End SpamMore.

Section SpamState.
Import AntiSpamManager.

(** X8: checks of one user are invisible to every other user: they change
    neither the other user's stored timestamps nor the outcome of the
    other user's next check. *)
Theorem checkSpam_isolates_users (m : t) (u u' : string) (now now' : Z) :
  u' <> u ->
  history (state (checkSpam u now m)) u' = history m u' /\
  result (checkSpam u' now' (state (checkSpam u now m))) = result (checkSpam u' now' m).
Proof.
  intros Hne. pose proof (checkSpam_other_user m u now u' Hne) as Hh.
  split; [exact Hh|].
  pose proof (checkSpam_thresholds m u now) as Hth.
  set (m1 := state (checkSpam u now m)) in *. clearbody m1.
  assert (Hk : in_window m1 now' (history m1 u') = in_window m now' (history m u')).
  { unfold in_window. rewrite Hh, Hth. reflexivity. }
  destruct (checkSpam_cases m u' now') as [(Hlt & R & _) | (Hge & R & _)]; rewrite R.
  - destruct (checkSpam_admits m1 u' now') as (R1 & _); [rewrite Hk, Hth; exact Hlt | exact R1].
  - destruct (checkSpam_flags m1 u' now') as (R1 & _); [rewrite Hk, Hth; exact Hge|].
    rewrite R1. unfold flagged. rewrite Hth. reflexivity.
Qed.

Lemma checkSpam_isolates_users_witness :
  history (state (checkSpam "ann" 1000 constructor)) "bob" = history constructor "bob" /\
  result (checkSpam "bob" 1001 (state (checkSpam "ann" 1000 constructor)))
    = result (checkSpam "bob" 1001 constructor).
Proof.
  apply (checkSpam_isolates_users constructor "ann" "bob" 1000 1001). discriminate.
Defined.

(** One check keeps a bound on the number of stored timestamps. *)
Lemma checkSpam_history_bounded m u now u' (bound : nat) :
  messageThreshold (thresholds m) <= Z.of_nat bound ->
  (length (history m u') <= bound)%nat ->
  (length (history (state (checkSpam u now m)) u') <= bound)%nat.
Proof.
  intros Hb Hlen. destruct (decide (u' = u)) as [->|Hne].
  - destruct (checkSpam_cases m u now) as [(Hlt & _ & S) | (_ & _ & S)]; rewrite S.
    + rewrite length_app. cbn [length]. lia.
    + exact Hlen.
  - rewrite checkSpam_other_user by exact Hne. exact Hlen.
Qed.

(** X9: the detector keeps at most [messageThreshold] timestamps per user:
    whatever checks are made, for whichever users and at whatever clock
    readings, a fresh detector never stores more than five timestamps
    for any user. *)
Theorem checkSpam_keeps_at_most_threshold_timestamps (calls : list (Z * string)) (u : string) :
  (length (history
             (final_state (List.map (fun call => (fst call, checkSpam (snd call))) calls)
                constructor) u) <= 5)%nat.
Proof.
  assert (Hgen : forall m,
            thresholds m = thresholds constructor ->
            (length (history m u) <= 5)%nat ->
            (length (history
                       (final_state
                          (List.map (fun call => (fst call, checkSpam (snd call))) calls) m) u)
             <= 5)%nat).
  { induction calls as [|[now v] rest IH]; intros m Hth Hlen; [exact Hlen|].
    cbn [List.map final_state fst snd]. apply IH.
    - rewrite checkSpam_thresholds. exact Hth.
    - apply checkSpam_history_bounded; [rewrite Hth; cbn; lia | exact Hlen]. }
  apply Hgen; [reflexivity |].
  unfold history. cbn [constructor messageHistory]. rewrite lookup_empty. cbn. lia.
Qed.

(** X10: a flagged check changes nothing in the detector (with a positive
    threshold): neither the timestamps nor the user table, so messages
    sent while flagged do not prolong the flagging. *)
Theorem checkSpam_flagged_changes_nothing (m : t) (u : string) (now : Z) (r : SpamResult) :
  0 < messageThreshold (thresholds m) ->
  result (checkSpam u now m) = Normal r ->
  isSpamming r = true ->
  state (checkSpam u now m) = m.
Proof.
  intros Hpos Hr Hflag.
  destruct (checkSpam_cases m u now) as [(_ & R & _) | (Hge & _ & _)].
  - rewrite R in Hr. injection Hr as <-. discriminate.
  - unfold history, in_window in Hge.
    destruct (messageHistory m !! u) as [h|] eqn:Hh;
      cbn [default from_option id List.filter length Z.of_nat] in Hge; [|lia].
    apply Z.leb_le in Hge. rewrite <- Z.geb_leb in Hge.
    unfold checkSpam, bind, this, Date_now, assign, ret, logger.warn, emit, set_history. cbn.
    rewrite Hh. cbn. rewrite Hh. cbn. rewrite Hge. reflexivity.
Qed.

Lemma checkSpam_flagged_changes_nothing_witness :
  let m := snd (replay (checkSpam "u") [1000; 1001; 1002; 1003; 1004] constructor) in
  state (checkSpam "u" 1005 m) = m.
Proof.
  apply (checkSpam_flagged_changes_nothing
           (snd (replay (checkSpam "u") [1000; 1001; 1002; 1003; 1004] constructor))
           "u" 1005 (flagged constructor));
    [vm_compute; reflexivity | vm_compute; reflexivity | reflexivity].
Defined.

(** X11: [clearUserHistory(userId)] resets a user: the next check is admitted
    (with a positive threshold) whatever was stored, its timestamp is
    the only one kept, and other users keep their history. *)
Theorem clearUserHistory_resets_user (m : t) (u u' : string) (t_clear now : Z) :
  0 < messageThreshold (thresholds m) ->
  u' <> u ->
  let m1 := state (clearUserHistory u t_clear m) in
  history m1 u = [] /\
  history m1 u' = history m u' /\
  result (checkSpam u now m1) = Normal admitted /\
  history (state (checkSpam u now m1)) u = [now].
Proof.
  intros Hpos Hne. cbv zeta.
  assert (H1 : history (state (clearUserHistory u t_clear m)) u = []).
  { unfold history, clearUserHistory, bind, this, assign, set_history. cbn.
    rewrite lookup_delete_eq. reflexivity. }
  assert (H2 : history (state (clearUserHistory u t_clear m)) u' = history m u').
  { unfold history, clearUserHistory, bind, this, assign, set_history. cbn.
    rewrite lookup_delete_ne by congruence. reflexivity. }
  assert (Hth : thresholds (state (clearUserHistory u t_clear m)) = thresholds m) by reflexivity.
  set (m1 := state (clearUserHistory u t_clear m)) in *. clearbody m1.
  destruct (checkSpam_admits m1 u now) as (R & S & _).
  { rewrite H1, Hth. cbn. lia. }
  rewrite H1 in S. cbn in S. auto.
Qed.

Lemma clearUserHistory_resets_user_witness :
  let m := snd (replay (checkSpam "u") [1000; 1001; 1002; 1003; 1004] constructor) in
  let m1 := state (clearUserHistory "u" 1005 m) in
  history m1 "u" = [] /\
  history m1 "v" = history m "v" /\
  result (checkSpam "u" 1006 m1) = Normal admitted /\
  history (state (checkSpam "u" 1006 m1)) "u" = [1006].
Proof.
  apply (clearUserHistory_resets_user
           (snd (replay (checkSpam "u") [1000; 1001; 1002; 1003; 1004] constructor))
           "u" "v" 1005 1006); [vm_compute; reflexivity | discriminate].
Defined.

End SpamState.

Section FarmingMore.
Import LeaderboardFarmingPrevention.

(** The outcome of a call when a usable record exists. *)
Lemma canPerformAction_with_record m u now lastAction :
  lastPointsUpdate m !! u = Some lastAction ->
  lastAction <> 0 ->
  (now - lastAction < minIntervalBetweenUpdates m /\
   allowed <$> match result (canPerformAction u now m) with
               | Normal r => Some r
               | Abrupt _ => None
               end = Some false /\
   state (canPerformAction u now m) = m)
  \/
  (minIntervalBetweenUpdates m <= now - lastAction /\
   result (canPerformAction u now m) = Normal action_allowed /\
   lastPointsUpdate (state (canPerformAction u now m)) !! u = Some now /\
   minIntervalBetweenUpdates (state (canPerformAction u now m)) = minIntervalBetweenUpdates m).
Proof.
  intros Hl Hnz.
  destruct (Z.lt_ge_cases (now - lastAction) (minIntervalBetweenUpdates m)) as [Hlt|Hge].
  - left. destruct (canPerformAction_too_soon m u now lastAction Hl Hnz Hlt) as (R & S).
    rewrite R. auto.
  - right. destruct (canPerformAction_elapsed m u now lastAction Hl Hge) as (R & S).
    repeat split; try assumption.
    assert (Hb : (now - lastAction <? minIntervalBetweenUpdates m) = false)
      by (apply Z.ltb_ge; exact Hge).
    assert (Hz : (lastAction =? 0) = false) by (apply Z.eqb_neq; exact Hnz).
    unfold canPerformAction, bind, this, Date_now, assign, ret, set_lastPointsUpdate. cbn.
    js_eval. reflexivity.
Qed.

Lemma allowed_times_spaced_from u times :
  forall m lastAction,
    lastPointsUpdate m !! u = Some lastAction ->
    lastAction <> 0 ->
    Forall (fun t => t <> 0) times ->
    spaced (minIntervalBetweenUpdates m) (lastAction :: allowed_times u times m).
Proof.
  induction times as [|now rest IH]; intros m lastAction Hl Hnz Hall.
  - cbn. auto.
  - inversion Hall as [|? ? Hnow Hrest]; subst.
    unfold allowed_times. cbn [times_where].
    destruct (canPerformAction_with_record m u now lastAction Hl Hnz)
      as [(_ & R & S) | (Hge & R & S & I)].
    + destruct (result (canPerformAction u now m)) as [r|e]; cbn in R.
      * injection R as R. rewrite R. rewrite S. apply (IH m lastAction Hl Hnz Hrest).
      * discriminate.
    + rewrite R. cbn [action_allowed allowed].
      specialize (IH _ now S Hnow Hrest). rewrite I in IH.
      cbn [spaced]. split; [exact Hge | exact IH].
Qed.

(** X12: the guarantee of the farming guard: along any run of calls for a
    user who had no record, made at clock readings other than 0, every
    two consecutive allowed actions are at least
    [minIntervalBetweenUpdates] apart; denied calls do not restart the
    interval. *)
Theorem canPerformAction_spaces_allowed_actions (m : t) (u : string) (times : list Z) :
  lastPointsUpdate m !! u = None ->
  Forall (fun t => t <> 0) times ->
  spaced (minIntervalBetweenUpdates m) (allowed_times u times m).
Proof.
  intros Hnone Hall. destruct times as [|t0 rest]; [cbn; auto|].
  inversion Hall as [|? ? Ht0 Hrest]; subst.
  unfold allowed_times. cbn [times_where].
  destruct (canPerformAction_no_record m u t0) as (R & S & I);
    [rewrite Hnone; reflexivity|].
  rewrite R. cbn [action_allowed allowed].
  pose proof (allowed_times_spaced_from u rest _ t0 S Ht0 Hrest) as Hsp.
  rewrite I in Hsp. exact Hsp.
Qed.

Lemma canPerformAction_spaces_allowed_actions_witness :
  spaced (minIntervalBetweenUpdates constructor)
    (allowed_times "u" [1000; 2000; 30999; 31000; 31001; 61000] constructor).
Proof.
  apply (canPerformAction_spaces_allowed_actions constructor "u"
           [1000; 2000; 30999; 31000; 31001; 61000]).
  - reflexivity.
  - repeat (constructor; [lia|]). constructor.
Defined.

(** X13: the retry hint of a denied action is the least whole number of
    seconds to wait: it is at least one, a call made that many seconds
    later is allowed, and a call made one second earlier than that is
    still denied. *)
Theorem canPerformAction_retryAfter_is_tight (m : t) (u : string) (now lastAction : Z) :
  lastPointsUpdate m !! u = Some lastAction ->
  lastAction <> 0 ->
  now - lastAction < minIntervalBetweenUpdates m ->
  let r := ceil_div_1000 (minIntervalBetweenUpdates m - (now - lastAction)) in
  result (canPerformAction u now m) = Normal (action_denied r) /\
  1 <= r /\
  result (canPerformAction u (now + 1000 * r) m) = Normal action_allowed /\
  result (canPerformAction u (now + 1000 * (r - 1)) m)
    = Normal (action_denied
                (ceil_div_1000 (minIntervalBetweenUpdates m
                                - (now + 1000 * (r - 1) - lastAction)))).
Proof.
  intros Hl Hnz Hlt. cbv zeta.
  pose proof (ceil_div_1000_spec (minIntervalBetweenUpdates m - (now - lastAction))) as Hceil.
  set (r := ceil_div_1000 (minIntervalBetweenUpdates m - (now - lastAction))) in *.
  destruct (canPerformAction_too_soon m u now lastAction Hl Hnz Hlt) as (R & _).
  split; [exact R|]. split; [lia|]. split.
  - destruct (canPerformAction_elapsed m u (now + 1000 * r) lastAction Hl) as (R2 & _);
      [lia | exact R2].
  - destruct (canPerformAction_too_soon m u (now + 1000 * (r - 1)) lastAction Hl Hnz)
      as (R2 & _); [lia | exact R2].
Qed.

Lemma canPerformAction_retryAfter_is_tight_witness :
  let m := state (canPerformAction "u" 1000 constructor) in
  let r := ceil_div_1000 (minIntervalBetweenUpdates m - (2500 - 1000)) in
  result (canPerformAction "u" 2500 m) = Normal (action_denied r) /\
  1 <= r /\
  result (canPerformAction "u" (2500 + 1000 * r) m) = Normal action_allowed /\
  result (canPerformAction "u" (2500 + 1000 * (r - 1)) m)
    = Normal (action_denied
                (ceil_div_1000 (minIntervalBetweenUpdates m
                                - (2500 + 1000 * (r - 1) - 1000)))).
Proof.
  apply (canPerformAction_retryAfter_is_tight
           (state (canPerformAction "u" 1000 constructor)) "u" 2500 1000);
    [vm_compute; reflexivity | lia | vm_compute; reflexivity].
Defined.

End FarmingMore.

Section MiddlewareProps.
Import CommandCooldownManager Middleware.
Context {X : Type}.

(** X14: [checkCommandRateLimit] never throws and returns whether the
    cooldown check allowed the command.  When the command is on cooldown
    it returns [false], counts the violation, and sends exactly one
    reply carrying the retry hint, through [editReply] if the
    interaction was deferred and as an ephemeral [reply] otherwise; a
    reply that fails is logged and swallowed.  When the command is
    available it returns [true] and sends nothing. *)
Theorem checkCommandRateLimit_outcome (i : Interaction X) (cmd : string) (cd : option Z)
    (now : Z) (m : CommandCooldownManager.t) (x : X) :
  let o := checkCommandRateLimit i cmd cd now (m, x) in
  match active_at now (cooldown_of m (user_id i) cmd) with
  | Some d =>
      let message :=
        cooldown_message (Some (ceil_div_1000 (CooldownData.expiresAt d - now))) in
      let sent :=
        if deferred i then editReply i message x else reply i message true x in
      result o = Normal false /\
      snd (state o) = snd sent /\
      cooldown_of (fst (state o)) (user_id i) cmd
        = Some {| CooldownData.expiresAt := CooldownData.expiresAt d;
                  CooldownData.violations := CooldownData.violations d + 1 |} /\
      events o
        = Logged Warn "Command cooldown triggered" (user_id i)
          :: match fst sent with
             | Normal _ => []
             | Abrupt _ => [Logged Error "Error sending rate limit reply" ""]
             end
  | None =>
      result o = Normal true /\
      snd (state o) = x /\
      events o = []
  end.
Proof.
  cbv zeta. unfold active_at.
  destruct (cooldown_of m (user_id i) cmd) as [d|] eqn:Hd.
  - destruct (Z_lt_le_dec now (CooldownData.expiresAt d)) as [Hlt|Hge].
    + replace (now >=? CooldownData.expiresAt d) with false
        by (symmetry; rewrite Z.geb_leb; apply Z.leb_gt; lia).
      destruct (checkCooldown_active m (user_id i) cmd (Some (default 5000 cd)) now d Hd Hlt)
        as (R & S & E).
      unfold checkCommandRateLimit, bind, lift, try_catch, send, ret, logger.error, emit.
      cbn [fst snd].
      destruct (checkCooldown (user_id i) cmd (Some (default 5000 cd)) now m) as [r s ev].
      cbn [result state events] in R, S, E. subst r ev.
      cbn. destruct (deferred i); cbn; cbn [fst snd].
      * set (sent := editReply i _ x). destruct sent as [[[]|e] x']; cbn; cbn [fst snd]; auto.
      * set (sent := reply i _ true x). destruct sent as [[[]|e] x']; cbn; cbn [fst snd]; auto.
    + replace (now >=? CooldownData.expiresAt d) with true
        by (symmetry; rewrite Z.geb_leb; apply Z.leb_le; lia).
      destruct (checkCooldown_elapsed m (user_id i) cmd (Some (default 5000 cd)) now d Hd Hge)
        as (R & S & E).
      unfold checkCommandRateLimit, bind, lift, ret. cbn [fst snd].
      destruct (checkCooldown (user_id i) cmd (Some (default 5000 cd)) now m) as [r s ev].
      cbn [result state events] in R, S, E. subst r ev. cbn. auto.
  - destruct (checkCooldown_first_use m (user_id i) cmd (Some (default 5000 cd)) now Hd)
      as (R & S & E).
    unfold checkCommandRateLimit, bind, lift, ret. cbn [fst snd].
    destruct (checkCooldown (user_id i) cmd (Some (default 5000 cd)) now m) as [r s ev].
    cbn [result state events] in R, S, E. subst r ev. cbn. auto.
Qed.

End MiddlewareProps.

(** * Further properties of the cache *)

Section CacheOps.
Import CacheManager.

Lemma autoCleanup_outcome now c :
  autoCleanup now c
  = mkOutcome (Normal tt)
      {| store := live_at now (store c);
         metrics := Metrics.incr_deletes
                      (Z.of_nat (size (store c) - size (live_at now (store c)))) (metrics c) |}
      (if (0 <? size (store c) - size (live_at now (store c)))%nat
       then [Logged Debug "Cache cleanup" ""] else []).
Proof.
  unfold autoCleanup, update_store, update_metrics, bind, this, Date_now, assign, ret,
    logger.debug, emit, live_at. cbn.
  match goal with |- context [if ?b then _ else _] => destruct b end; reflexivity.
Qed.

Lemma clear_outcome now c :
  clear now c
  = mkOutcome (Normal tt) {| store := ∅; metrics := metrics c |} [Logged Info "Cache cleared" ""].
Proof. reflexivity. Qed.

Lemma live_at_lookup now (st : gmap string CacheEntry.t) k :
  live_at now st !! k
  = match st !! k with
    | Some e => if now - CacheEntry.createdAt e >? CacheEntry.ttl e then None else Some e
    | None => None
    end.
Proof.
  unfold live_at. rewrite map_lookup_filter.
  destruct (st !! k) as [e|]; cbn; [|reflexivity].
  destruct (now - CacheEntry.createdAt e >? CacheEntry.ttl e); cbn.
  - rewrite option_guard_False by discriminate. reflexivity.
  - rewrite option_guard_True by reflexivity. reflexivity.
Qed.

(** The answer of [get] as a function of what is stored. *)
Lemma get_result key now c :
  result (get key now c)
  = Normal match store c !! key with
           | Some e =>
               if now - CacheEntry.createdAt e >? CacheEntry.ttl e then JNull
               else CacheEntry.value e
           | None => JNull
           end.
Proof.
  destruct (store c !! key) as [e|] eqn:Hk.
  - destruct (Z_lt_le_dec (CacheEntry.ttl e) (now - CacheEntry.createdAt e)) as [Hold|Hyoung].
    + rewrite (get_expired key now c e) by assumption.
      replace (now - CacheEntry.createdAt e >? CacheEntry.ttl e) with true
        by (symmetry; rewrite Z.gtb_ltb; apply Z.ltb_lt; exact Hold).
      reflexivity.
    + rewrite (get_live key now c e) by assumption.
      replace (now - CacheEntry.createdAt e >? CacheEntry.ttl e) with false
        by (symmetry; rewrite Z.gtb_ltb; apply Z.ltb_ge; exact Hyoung).
      reflexivity.
  - rewrite get_absent by assumption. reflexivity.
Qed.

(** X15: the sweep of the cache removes exactly the expired entries: an entry
    that is not expired at the time of the sweep is kept unchanged, every
    other one is gone; [deletes] grows by the number of entries removed
    (the store's size before the sweep minus its size after it) and the
    counters [hits], [misses] and [sets] are untouched; and the sweep is
    not visible
    through [get]: a [get] at the time of the sweep answers the same
    with or without it. *)
Theorem cache_autoCleanup_removes_expired (c : t) (now : Z) (k : string) :
  let c' := state (autoCleanup now c) in
  result (autoCleanup now c) = Normal tt /\
  store c' !! k
    = match store c !! k with
      | Some e => if now - CacheEntry.createdAt e >? CacheEntry.ttl e then None else Some e
      | None => None
      end /\
  (size (store c') <= size (store c))%nat /\
  Metrics.deletes (metrics c')
    = Metrics.deletes (metrics c)
      + (Z.of_nat (size (store c)) - Z.of_nat (size (store c'))) /\
  Metrics.hits (metrics c') = Metrics.hits (metrics c) /\
  Metrics.misses (metrics c') = Metrics.misses (metrics c) /\
  Metrics.sets (metrics c') = Metrics.sets (metrics c) /\
  result (get k now c') = result (get k now c).
Proof.
  cbv zeta. rewrite autoCleanup_outcome. cbn [result state store metrics].
  pose proof (map_size_filter
                (fun kv : string * CacheEntry.t =>
                   (now - CacheEntry.createdAt (snd kv) >? CacheEntry.ttl (snd kv)) = false)
                (store c)) as Hle.
  fold (live_at now (store c)) in Hle.
  split; [reflexivity|]. split; [apply live_at_lookup|].
  split; [exact Hle|].
  split; [cbn [Metrics.incr_deletes Metrics.deletes]; rewrite Nat2Z.inj_sub by exact Hle;
          reflexivity|].
  do 3 (split; [reflexivity|]).
  rewrite !get_result. cbn [store]. rewrite live_at_lookup.
  destruct (store c !! k) as [e|]; [|reflexivity].
  destruct (now - CacheEntry.createdAt e >? CacheEntry.ttl e) eqn:Hb; [reflexivity|].
  rewrite Hb. reflexivity.
Qed.

(** X16: [clear()] empties the store, so that every later [get] misses, and
    leaves all four counters as they were: cleared entries are not
    counted as deletes. *)
Theorem clear_empties_the_store (c : t) (now now' : Z) (k : string) :
  let c' := state (clear now c) in
  result (clear now c) = Normal tt /\
  store c' = ∅ /\
  metrics c' = metrics c /\
  get k now' c'
    = mkOutcome (Normal JNull)
        {| store := ∅; metrics := Metrics.incr_misses (metrics c) |} [].
Proof.
  cbv zeta. rewrite clear_outcome. cbn [result state store metrics].
  split; [reflexivity|]. split; [reflexivity|]. split; [reflexivity|].
  apply (get_absent k now' {| store := ∅; metrics := metrics c |}). apply lookup_empty.
Qed.

(** The counters after one operation. *)
Lemma run_op_metrics now op c :
  let m := metrics c in
  let m' := metrics (state (run_op op now c)) in
  Metrics.hits m' + Metrics.misses m'
    = Metrics.hits m + Metrics.misses m + (if is_get op then 1 else 0) /\
  Metrics.sets m' = Metrics.sets m + (if is_set op then 1 else 0) /\
  Metrics.hits m <= Metrics.hits m' /\
  Metrics.misses m <= Metrics.misses m' /\
  Metrics.deletes m <= Metrics.deletes m'.
Proof.
  cbv zeta. destruct op as [key v ttl | key | key | | ]; unfold run_op, bind, ret.
  - rewrite set_outcome. cbn. lia.
  - destruct (store c !! key) as [e|] eqn:Hk.
    + destruct (Z_lt_le_dec (CacheEntry.ttl e) (now - CacheEntry.createdAt e)).
      * rewrite (get_expired key now c e) by assumption. cbn. lia.
      * rewrite (get_live key now c e) by assumption. cbn. lia.
    + rewrite get_absent by assumption. cbn. lia.
  - rewrite delete_outcome.
    destruct (bool_decide (is_Some (store c !! key))); cbn; lia.
  - rewrite clear_outcome. cbn. lia.
  - rewrite autoCleanup_outcome. cbn. lia.
Qed.

(** X17: the counters account for the traffic: over any sequence of
    operations and clock readings, [hits + misses] grows by the number
    of [get]s and [sets] by the number of [set]s, and no counter ever
    decreases. *)
Theorem cache_metrics_count_operations (ops : list (Z * CacheOp)) (c : t) :
  let m := metrics c in
  let m' := metrics (final_state (cache_calls ops) c) in
  Metrics.hits m' + Metrics.misses m'
    = Metrics.hits m + Metrics.misses m + count_ops is_get ops /\
  Metrics.sets m' = Metrics.sets m + count_ops is_set ops /\
  Metrics.hits m <= Metrics.hits m' /\
  Metrics.misses m <= Metrics.misses m' /\
  Metrics.deletes m <= Metrics.deletes m'.
Proof.
  cbv zeta. revert c. induction ops as [|[now op] rest IH]; intros c.
  - unfold count_ops. cbn. lia.
  - cbn [cache_calls List.map final_state fst snd].
    pose proof (run_op_metrics now op c) as H1. cbv zeta in H1.
    specialize (IH (state (run_op op now c))). unfold cache_calls in IH.
    unfold count_ops in *. cbn [List.filter snd].
    destruct (is_get op), (is_set op); cbn [length] in *; lia.
Qed.

End CacheOps.

Section CacheRefinement.
Import CacheManager.

Lemma tracks_later lo lo' c a : lo <= lo' -> tracks lo c a -> tracks lo' c a.
Proof.
  intros Hle Ht k. specialize (Ht k).
  destruct (a !! k) as [[[v t0] ttl]|]; [|exact Ht].
  destruct Ht as [He | [Hn Hexp]]; [left; exact He | right; split; [exact Hn | lia]].
Qed.

Lemma run_op_get key now c :
  got (run_op (OpGet key) now c)
    = Some match store c !! key with
           | Some e =>
               if now - CacheEntry.createdAt e >? CacheEntry.ttl e then JNull
               else CacheEntry.value e
           | None => JNull
           end /\
  state (run_op (OpGet key) now c) = state (get key now c).
Proof.
  pose proof (get_result key now c) as Hr.
  unfold got, run_op, bind, ret.
  destruct (get key now c) as [r s ev]. cbn [result] in Hr. subst r. cbn. auto.
Qed.

(** One operation keeps the cache in agreement with the expected map,
    and a [get] answers as expected. *)
Lemma tracks_step lo now op c a :
  lo <= now ->
  tracks lo c a ->
  tracks now (state (run_op op now c)) (expected_step now op a) /\
  got (run_op op now c)
    = match op with
      | OpGet key => Some (expected_get now (a !! key))
      | _ => None
      end.
Proof.
  intros Hle Ht. apply (tracks_later lo now c a Hle) in Ht.
  destruct op as [key v ttl | key | key | | ]; cbn [expected_step].
  - (* set *)
    unfold run_op, bind, ret, got. rewrite set_outcome. cbn [result state].
    split; [|reflexivity]. intros k. cbn [store].
    destruct (decide (k = key)) as [->|Hne].
    + rewrite !lookup_insert_eq. left. eexists. split; [reflexivity|]. cbn. auto.
    + rewrite !lookup_insert_ne by congruence. apply Ht.
  - (* get *)
    destruct (run_op_get key now c) as (Hg & Hs). rewrite Hg, Hs. split.
    + destruct (get_effect key now c) as (Hkey & Hother & _).
      intros k. destruct (decide (k = key)) as [->|Hne].
      * rewrite Hkey. specialize (Ht key). unfold entry_after_get.
        destruct (a !! key) as [[[v t0] ttl]|].
        -- destruct Ht as [(e & He & Hv & Hc & Hl) | (Hn & Hexp)].
           ++ rewrite He.
              destruct (now - CacheEntry.createdAt e >? CacheEntry.ttl e) eqn:Hb.
              ** right. split; [reflexivity|]. rewrite Z.gtb_ltb in Hb.
                 apply Z.ltb_lt in Hb. lia.
              ** left. eexists. split; [reflexivity|]. cbn. auto.
           ++ rewrite Hn. right. auto.
        -- rewrite Ht. reflexivity.
      * rewrite Hother by exact Hne. apply Ht.
    + f_equal. specialize (Ht key). unfold expected_get.
      destruct (a !! key) as [[[v t0] ttl]|].
      * destruct Ht as [(e & He & Hv & Hc & Hl) | (Hn & Hexp)].
        -- rewrite He, Hv, Hc, Hl. reflexivity.
        -- rewrite Hn.
           replace (now - t0 >? ttl) with true
             by (symmetry; rewrite Z.gtb_ltb; apply Z.ltb_lt; lia).
           reflexivity.
      * rewrite Ht. reflexivity.
  - (* delete *)
    assert (Hs : store (state (run_op (OpDelete key) now c)) = base.delete key (store c)
                 /\ got (run_op (OpDelete key) now c) = None).
    { unfold run_op, bind, ret, got. rewrite delete_outcome.
      destruct (bool_decide (is_Some (store c !! key))); cbn; auto. }
    destruct Hs as (Hs & Hg). split; [|exact Hg].
    intros k. rewrite Hs. destruct (decide (k = key)) as [->|Hne].
    + rewrite !lookup_delete_eq. reflexivity.
    + rewrite !lookup_delete_ne by congruence. apply Ht.
  - (* clear *)
    unfold run_op, bind, ret, got. rewrite clear_outcome. cbn [result state].
    split; [|reflexivity]. intros k. cbn [store]. rewrite !lookup_empty. reflexivity.
  - (* sweep *)
    unfold run_op, bind, ret, got. rewrite autoCleanup_outcome. cbn [result state].
    split; [|reflexivity]. intros k. cbn [store]. rewrite live_at_lookup.
    specialize (Ht k). destruct (a !! k) as [[[v t0] ttl]|].
    + destruct Ht as [(e & He & Hv & Hc & Hl) | (Hn & Hexp)].
      * rewrite He. destruct (now - CacheEntry.createdAt e >? CacheEntry.ttl e) eqn:Hb.
        -- right. split; [reflexivity|]. rewrite Z.gtb_ltb in Hb. apply Z.ltb_lt in Hb. lia.
        -- left. eauto.
      * rewrite Hn. right. auto.
    + rewrite Ht. reflexivity.
Qed.

Lemma tracks_run ops :
  forall lo c a,
    tracks lo c a ->
    Forall (fun t => lo <= t) (List.map fst ops) ->
    StronglySorted Z.le (List.map fst ops) ->
    List.map got (run_calls (cache_calls ops) c) = expected_gets ops a.
Proof.
  induction ops as [|[now op] rest IH]; intros lo c a Ht Hlo Hsorted; [reflexivity|].
  cbn [List.map fst] in Hlo, Hsorted.
  inversion Hlo as [|? ? Hnow _]; subst.
  inversion Hsorted as [|? ? Hsorted' Hrest]; subst.
  destruct (tracks_step lo now op c a Hnow Ht) as (Ht' & Hg).
  cbn [cache_calls List.map run_calls expected_gets fst snd].
  rewrite Hg. f_equal. apply (IH now); assumption.
Qed.

(** X18: the cache behaves as the map a caller has in mind.  Along any
    sequence of [set], [get], [delete], [clear] and sweeps made at
    non-decreasing clock readings on a fresh cache, every [get] answers
    with the value of the latest [set] of its key, provided no [delete]
    or [clear] came after it and it is at most its time-to-live old, and
    with [null] otherwise; lazy purging and sweeps never show. *)
Theorem cache_get_serves_latest_unexpired_set (ops : list (Z * CacheOp)) :
  StronglySorted Z.le (List.map fst ops) ->
  List.map got (run_calls (cache_calls ops) constructor) = expected_gets ops ∅.
Proof.
  intros Hsorted. destruct ops as [|[t0 op] rest]; [reflexivity|].
  apply (tracks_run ((t0, op) :: rest) t0).
  - intros k. rewrite lookup_empty. apply lookup_empty.
  - cbn [List.map fst] in *. constructor; [lia|].
    inversion Hsorted; subst. assumption.
  - exact Hsorted.
Qed.

Lemma cache_get_serves_latest_unexpired_set_witness :
  let ops := [ (1000, OpSet "k" (JNumber 1) (Some 100));
               (1050, OpGet "k");
               (1101, OpGet "k");
               (1200, OpSet "k" (JNumber 2) None);
               (1300, OpSweep);
               (1400, OpGet "k");
               (1500, OpDelete "k");
               (1600, OpGet "k") ] in
  List.map got (run_calls (cache_calls ops) constructor) = expected_gets ops ∅.
Proof.
  apply (cache_get_serves_latest_unexpired_set
           [ (1000, OpSet "k" (JNumber 1) (Some 100));
             (1050, OpGet "k");
             (1101, OpGet "k");
             (1200, OpSet "k" (JNumber 2) None);
             (1300, OpSweep);
             (1400, OpGet "k");
             (1500, OpDelete "k");
             (1600, OpGet "k") ]).
  cbn [List.map fst].
  repeat (constructor; [| repeat (constructor; try lia)]). constructor.
Defined.

(** What the expected answers are in that run. *)
Lemma expected_gets_example :
  expected_gets
    [ (1000, OpSet "k" (JNumber 1) (Some 100));
      (1050, OpGet "k");
      (1101, OpGet "k");
      (1200, OpSet "k" (JNumber 2) None);
      (1300, OpSweep);
      (1400, OpGet "k");
      (1500, OpDelete "k");
      (1600, OpGet "k") ] ∅
  = [None; Some (JNumber 1); Some JNull; None; None; Some (JNumber 2); None; Some JNull].
Proof. vm_compute. reflexivity. Qed.

End CacheRefinement.

Section StatsMore.
Import CacheManager.

Lemma sum_serialized_succeeds values :
  forall bytes,
    (exists total, sum_serialized values bytes = Normal total) <->
    Forall (fun v => exists n, serialized_length v = Normal n) values.
Proof.
  induction values as [|v rest IH]; intros bytes; cbn [sum_serialized].
  - split; [constructor | eauto].
  - destruct (serialized_length v) as [len|e] eqn:Hv.
    + rewrite IH. split.
      * intros H. constructor; eauto.
      * intros H. inversion H; assumption.
    + split.
      * intros [total Ht]. discriminate.
      * intros H. inversion H as [|? ? [n Hn] _]; subst. rewrite Hv in Hn. discriminate.
Qed.

Lemma getStats_outcome now c :
  getStats now c
  = match sum_serialized (CacheEntry.value <$> (map_to_list (store c)).*2) 0 with
    | Normal bytes =>
        mkOutcome
          (Normal {| stats_metrics := metrics c;
                     hitRate :=
                       if Metrics.hits (metrics c) + Metrics.misses (metrics c) >? 0
                       then Some (Metrics.hits (metrics c),
                                  Metrics.hits (metrics c) + Metrics.misses (metrics c))
                       else None;
                     entriesStored := size (store c);
                     estimatedMemory := format_KB bytes |}) c []
    | Abrupt e => mkOutcome (Abrupt e) c []
    end.
Proof.
  unfold getStats, estimateMemoryUsage, bind, this, complete, ret.
  destruct (sum_serialized _ 0); reflexivity.
Qed.

(** X19: [getStats] is a read-only snapshot, and it returns exactly when
    every stored value can be serialized to a string: it then reports
    the counters and the number of entries as they are; with any other
    value in the store (even an expired one) it throws. *)
Theorem getStats_succeeds_iff_serializable (c : t) (now : Z) :
  state (getStats now c) = c /\
  events (getStats now c) = [] /\
  ((exists st, result (getStats now c) = Normal st) <->
   (forall k e, store c !! k = Some e ->
                exists n, serialized_length (CacheEntry.value e) = Normal n)) /\
  (forall st, result (getStats now c) = Normal st ->
              stats_metrics st = metrics c /\ entriesStored st = size (store c)).
Proof.
  rewrite getStats_outcome.
  assert (Hall : Forall (fun v => exists n, serialized_length v = Normal n)
                   (CacheEntry.value <$> (map_to_list (store c)).*2)
                 <-> (forall k e, store c !! k = Some e ->
                                  exists n, serialized_length (CacheEntry.value e) = Normal n)).
  { rewrite Forall_forall. split.
    - intros H k e Hk. apply H.
      apply list_elem_of_fmap. exists e. split; [reflexivity|].
      apply list_elem_of_fmap. exists (k, e). split; [reflexivity|].
      apply elem_of_map_to_list. exact Hk.
    - intros H v Hv.
      apply list_elem_of_fmap in Hv as (e & -> & He).
      apply list_elem_of_fmap in He as ([k e'] & -> & Hke).
      apply elem_of_map_to_list in Hke. apply (H k e' Hke). }
  rewrite <- Hall, <- (sum_serialized_succeeds _ 0).
  destruct (sum_serialized _ 0) as [bytes|e]; cbn [result state events].
  - split; [reflexivity|]. split; [reflexivity|]. split.
    + split; eauto.
    + intros st Hst. injection Hst as <-. split; reflexivity.
  - split; [reflexivity|]. split; [reflexivity|]. split.
    + split; intros [? H]; discriminate.
    + intros st Hst. discriminate.
Qed.

End StatsMore.

Section Handlers.
Import CacheManager.
Context {X : Type}.

(** X20: invalidating a named cache forces the next read through the handler
    to fetch again, whatever was cached and however fresh: the fetched
    value is returned, the callback is invoked once, and the value is
    stored under the handler's key with the handler's time-to-live.
    The entry of a handler with another key is not touched. *)
Theorem handler_invalidate_forces_refetch (h h' : CacheHandler.t) (fetchFn : FetchFn X)
    (c : t) (x : X) (v : JsValue) (t_inv now settledAt : Z) :
  fst (fetchFn x) = Normal v ->
  CacheHandler.cacheKey h' <> CacheHandler.cacheKey h ->
  let c1 := state (CacheHandler.invalidate h t_inv c) in
  let o := CacheHandler.get h fetchFn settledAt now (c1, x) in
  store c1 !! CacheHandler.cacheKey h = None /\
  store c1 !! CacheHandler.cacheKey h' = store c !! CacheHandler.cacheKey h' /\
  result o = Normal v /\
  fetch_count (events o) = 1%nat /\
  store (fst (state o)) !! CacheHandler.cacheKey h
    = Some {| CacheEntry.value := v;
              CacheEntry.createdAt := settledAt;
              CacheEntry.ttl := CacheHandler.ttl h;
              CacheEntry.hits := 0;
              CacheEntry.lastAccessed := settledAt |}.
Proof.
  intros Hf Hne. cbv zeta.
  assert (Hs : store (state (CacheHandler.invalidate h t_inv c))
               = base.delete (CacheHandler.cacheKey h) (store c)).
  { unfold CacheHandler.invalidate, bind, logger.info, emit. rewrite delete_outcome.
    destruct (bool_decide (is_Some (store c !! CacheHandler.cacheKey h))); reflexivity. }
  set (c1 := state (CacheHandler.invalidate h t_inv c)) in *. clearbody c1.
  assert (Hk : store c1 !! CacheHandler.cacheKey h = None)
    by (rewrite Hs; apply lookup_delete_eq).
  split; [exact Hk|].
  split; [rewrite Hs; apply lookup_delete_ne; congruence|].
  unfold CacheHandler.get.
  rewrite (getOrSet_miss_fetched (CacheHandler.cacheKey h) fetchFn
             (Some (CacheHandler.ttl h)) settledAt now c1 x v)
    by (try rewrite get_absent by exact Hk; auto).
  cbn [result state events fst]. rewrite set_outcome. cbn [state store default from_option id].
  rewrite fetch_count_app, fetch_count_get, lookup_insert_eq. auto.
Qed.

End Handlers.

Section HandlersWitness.
Import CacheManager.

Lemma handler_invalidate_forces_refetch_witness :
  let h := CacheHandler.LeaderboardCacheHandler in
  let h' := CacheHandler.DailyQuestionCacheHandler in
  let fn := constant_fetch (Normal (JString "board")) in
  let c := state (set "question:daily" (JString "q") (Some 86400000) 500
                    (state (set "leaderboard:top10" (JString "old") (Some 300000) 400
                              constructor))) in
  let c1 := state (CacheHandler.invalidate h 1000 c) in
  let o := CacheHandler.get h fn 1005 1001 (c1, tt) in
  store c1 !! CacheHandler.cacheKey h = None /\
  store c1 !! CacheHandler.cacheKey h' = store c !! CacheHandler.cacheKey h' /\
  result o = Normal (JString "board") /\
  fetch_count (events o) = 1%nat /\
  store (fst (state o)) !! CacheHandler.cacheKey h
    = Some {| CacheEntry.value := JString "board";
              CacheEntry.createdAt := 1005;
              CacheEntry.ttl := CacheHandler.ttl h;
              CacheEntry.hits := 0;
              CacheEntry.lastAccessed := 1005 |}.
Proof.
  apply (handler_invalidate_forces_refetch
           CacheHandler.LeaderboardCacheHandler CacheHandler.DailyQuestionCacheHandler
           (constant_fetch (Normal (JString "board")))
           (state (set "question:daily" (JString "q") (Some 86400000) 500
                     (state (set "leaderboard:top10" (JString "old") (Some 300000) 400
                               constructor))))
           tt (JString "board") 1000 1001 1005);
    [reflexivity | discriminate].
Defined.

End HandlersWitness.

Section CooldownStats.
Import CommandCooldownManager.

Lemma getStats_outcome_cooldown now m :
  getStats now m
  = mkOutcome
      (Normal {| totalUsers := size (cooldowns m);
                 totalActiveUsers :=
                   length (List.filter
                             (fun cmds : gmap string CooldownData.t => (0 <? size cmds)%nat)
                             (map_to_list (cooldowns m)).*2) |}) m [].
Proof. reflexivity. Qed.

(** X21: the statistics of the cooldown manager: the users counted as active
    are never more than the users tracked, and right after a sweep the
    two numbers are equal, because the sweep leaves no user without a
    record. *)
Theorem cooldown_getStats_active_users (m : t) (now t_sweep : Z) (s s' : Stats) :
  result (getStats now m) = Normal s ->
  result (getStats now (state (autoCleanup t_sweep m))) = Normal s' ->
  (totalActiveUsers s <= totalUsers s)%nat /\
  totalActiveUsers s' = totalUsers s' /\
  (totalUsers s' <= totalUsers s)%nat.
Proof.
  rewrite !getStats_outcome_cooldown. cbn [result].
  intros Hs Hs'. injection Hs as <-. injection Hs' as <-. cbn [totalUsers totalActiveUsers].
  split; [|split].
  - rewrite <- length_map_to_list, <- (length_fmap snd). apply List.filter_length_le.
  - rewrite <- length_map_to_list, <- (length_fmap snd). f_equal.
    apply List.forallb_filter_id. apply List.forallb_forall. intros cmds Hin.
    apply list_elem_of_In in Hin. apply list_elem_of_fmap in Hin as ([u cmds'] & -> & Hu).
    apply elem_of_map_to_list in Hu. cbn [snd].
    apply Nat.ltb_lt. rewrite autoCleanup_cooldowns in Hu.
    apply map_lookup_filter_Some_1_2 in Hu. cbn in Hu. lia.
  - rewrite autoCleanup_cooldowns.
    etransitivity; [apply map_size_filter|]. rewrite map_size_fmap. reflexivity.
Qed.

Lemma cooldown_getStats_active_users_witness :
  let m := state (resetCooldown "bob" "daily" 1500
                    (state (checkCooldown "bob" "daily" None 1000
                              (state (checkCooldown "ann" "daily" None 1000 constructor))))) in
  let s := {| totalUsers := 2; totalActiveUsers := 1 |} in
  let s' := {| totalUsers := 1; totalActiveUsers := 1 |} in
  result (getStats 2000 m) = Normal s /\
  result (getStats 2000 (state (autoCleanup 2000 m))) = Normal s' /\
  (totalActiveUsers s <= totalUsers s)%nat /\
  totalActiveUsers s' = totalUsers s' /\
  (totalUsers s' <= totalUsers s)%nat.
Proof.
  split; [vm_compute; reflexivity|]. split; [vm_compute; reflexivity|].
  apply (cooldown_getStats_active_users
           (state (resetCooldown "bob" "daily" 1500
                     (state (checkCooldown "bob" "daily" None 1000
                               (state (checkCooldown "ann" "daily" None 1000 constructor))))))
           2000 2000
           {| totalUsers := 2; totalActiveUsers := 1 |}
           {| totalUsers := 1; totalActiveUsers := 1 |});
    vm_compute; reflexivity.
Defined.

End CooldownStats.
